(** * Yamale: validators and the top-level entry points

    A shallow embedding of [yamale/validators/validators.py] and
    [yamale/yamale.py], with the properties of their type predicates,
    of the Redshift datatype grammar, of the built-in registry and of
    [make_data] / [validate].

    Conventions.
    - The language is Python 3.  A [str] is a [string]; a character is an
      [ascii] read as the code point 0..255.
    - A Python exception is a value of [exn]; code that may raise returns
      [Exc A].
    - A Python [dict] is a [gmap]; a missing key raises [KeyError].
    - What lives outside the two files is a parameter: the [re] engine
      behind user patterns, the reader, [Schema.validate], and the
      interpreter's limit on the digits [int] converts. *)

From Stdlib Require Import ZArith List Ascii String Bool Lia.
From Stdlib Require Import Floats.SpecFloat.
From stdpp Require Import base option list strings gmap.

Local Open Scope string_scope.
Local Open Scope Z_scope.

(** ** Exceptions *)

Inductive exn : Type :=
| ValueError
| KeyError
| IndexError
| AttributeError.

Inductive Exc (A : Type) : Type :=
| Ok (a : A)
| Raise (e : exn).

Arguments Ok {A} a.
Arguments Raise {A} e.

(** Sequencing: the first exception raised ends the computation.  This is
    stdpp's [x ← m; k] notation. *)
#[global] Instance exc_ret : MRet Exc := fun A a => Ok a.
#[global] Instance exc_bind : MBind Exc := fun A B k m =>
  match m with
  | Ok a => k a
  | Raise e => Raise e
  end.

(** [d[k]] on a dict. *)
Definition getitem {V : Type} (d : gmap string V) (k : string) : Exc V :=
  match d !! k with
  | Some v => Ok v
  | None => Raise KeyError
  end.

(** [l[i]] on a list, for a non-negative literal index. *)
Definition list_getitem {A : Type} (l : list A) (i : nat) : Exc A :=
  match nth_error l i with
  | Some x => Ok x
  | None => Raise IndexError
  end.

(** ** Data values (the parsed tree) *)

Record pydate : Type := mk_date { year : Z; month : Z; day : Z }.
Record pytime : Type := mk_time { hour : Z; minute : Z; second : Z }.

#[warnings="-register-all"] Inductive Value : Type :=
| VNull
| VBool (b : bool)
| VInt (z : Z)
| VFloat (f : spec_float)
| VStr (s : string)
| VDate (d : pydate)
| VTimestamp (d : pydate) (t : pytime)
| VSeq (items : list Value)
| VMap (entries : list (string * Value)).

(** Python truth value of a datum ([if x], [x if c else y]). *)
Definition truthy (v : Value) : bool :=
  match v with
  | VNull => false
  | VBool b => b
  | VInt z => negb (z =? 0)
  | VFloat (S754_zero _) => false
  | VFloat _ => true
  | VStr s => negb (String.eqb s "")
  | VDate _ => true
  | VTimestamp _ _ => true
  | VSeq items => match items with [] => false | _ => true end
  | VMap entries => match entries with [] => false | _ => true end
  end.

(** [isinstance(value, C)] for the classes the validators test.  [bool] is
    a subclass of [int], [datetime] is a subclass of [date], and [str],
    [list] are registered [Sequence]s. *)
Definition isinstance_str (v : Value) : bool :=
  match v with VStr _ => true | _ => false end.

Definition isinstance_bool (v : Value) : bool :=
  match v with VBool _ => true | _ => false end.

Definition isinstance_int (v : Value) : bool :=
  match v with VBool _ | VInt _ => true | _ => false end.

Definition isinstance_float (v : Value) : bool :=
  match v with VFloat _ => true | _ => false end.

Definition isinstance_datetime (v : Value) : bool :=
  match v with VTimestamp _ _ => true | _ => false end.

Definition isinstance_date (v : Value) : bool :=
  match v with VDate _ | VTimestamp _ _ => true | _ => false end.

Definition isinstance_Sequence (v : Value) : bool :=
  match v with VStr _ | VSeq _ => true | _ => false end.

Definition isinstance_Mapping (v : Value) : bool :=
  match v with VMap _ => true | _ => false end.

(** Modelled from the spec: [util.isstr] ([yamale/util.py] is outside the
    two files embedded here).  The spec's Value type has one String
    variant and the [str] validator's predicate is membership in it. *)
Definition isstr (v : Value) : bool := isinstance_str v.

(** ** Characters and strings *)

Definition code_in (lo hi : N) (c : ascii) : bool :=
  ((lo <=? N_of_ascii c) && (N_of_ascii c <=? hi))%N.

(** [[a-z]], [[A-Z]] *)
Definition is_lower (c : ascii) : bool := code_in 97 122 c.
Definition is_upper (c : ascii) : bool := code_in 65 90 c.

(** [\d]: among the code points 0..255 the decimal digits are 0-9. *)
Definition is_digit (c : ascii) : bool := code_in 48 57 c.

(** [\s] on a [str] pattern: Unicode white space, which among the code
    points 0..255 is 9..13, 28..32, 133 and 160. *)
Definition is_space (c : ascii) : bool :=
  code_in 9 13 c || code_in 28 32 c || code_in 133 133 c || code_in 160 160 c.

(** [.] without DOTALL: anything but a newline. *)
Definition is_dot (c : ascii) : bool := negb (Ascii.eqb c "010").

Definition is_char (a : ascii) (c : ascii) : bool := Ascii.eqb a c.

(** [[a-zA-Z\s]] *)
Definition is_letter_or_space (c : ascii) : bool :=
  is_lower c || is_upper c || is_space c.

(** [str.upper] on the letters a-z.  The other characters are left as they
    are: the method changes some of those beyond code point 127, into
    characters (or the pair SS) that no keyword contains, so that
    membership in a list of keywords is the same. *)
Definition upper_char (c : ascii) : ascii :=
  if is_lower c then ascii_of_N (N_of_ascii c - 32) else c.

Fixpoint upper (s : string) : string :=
  match s with
  | "" => ""
  | String c r => String (upper_char c) (upper r)
  end.

(** [x in l] for a list of strings. *)
Definition str_in (x : string) (l : list string) : bool :=
  existsb (String.eqb x) l.

(** [s.split(sep)] for a one-character separator: never the empty list. *)
Fixpoint split (sep : ascii) (s : string) : list string :=
  match s with
  | "" => [""]
  | String c r =>
      if Ascii.eqb c sep then "" :: split sep r
      else match split sep r with
           | h :: t => String c h :: t
           | [] => [String c ""]
           end
  end.

(** [s.replace(c, "")] for a one-character [c]. *)
Fixpoint replace_empty (c : ascii) (s : string) : string :=
  match s with
  | "" => ""
  | String c' r =>
      if Ascii.eqb c' c then replace_empty c r else String c' (replace_empty c r)
  end.

(** The white space that [int] skips around a number: of the code points
    below 128 those of C's [isspace] (so not 28..31), and the Unicode
    white space above. *)
Definition is_int_space (c : ascii) : bool :=
  code_in 9 13 c || code_in 32 32 c || code_in 133 133 c || code_in 160 160 c.

Fixpoint lstrip (s : string) : string :=
  match s with
  | "" => ""
  | String c r => if is_int_space c then lstrip r else s
  end.

Fixpoint rstrip (s : string) : string :=
  match s with
  | "" => ""
  | String c r =>
      match rstrip r with
      | "" => if is_int_space c then "" else String c ""
      | r' => String c r'
      end
  end.

Definition digit_val (c : ascii) : Z := Z.of_N (N_of_ascii c) - 48.

(** The digits of an [int] literal given as text: decimal digits, with
    single underscores allowed between two digits. *)
Fixpoint int_digits (acc : Z) (after_digit : bool) (s : string) : option Z :=
  match s with
  | "" => if after_digit then Some acc else None
  | String c r =>
      if is_digit c then int_digits (10 * acc + digit_val c) true r
      else if Ascii.eqb c "_" && after_digit then int_digits acc false r
      else None
  end.

Fixpoint digit_count (s : string) : nat :=
  match s with
  | "" => O
  | String c r => if is_digit c then S (digit_count r) else digit_count r
  end.

(** The interpreter's limit on the digits of a text converted to an [int]:
    [max_str_digits] is [sys.get_int_max_str_digits()], 4300 unless it was
    changed, and 0 when the limit is off, as it is in the versions of
    Python that have none.  Texts of up to 640 digits are never checked. *)
Definition exceeds_digit_limit (max_str_digits digits : nat) : bool :=
  ((640 <? digits) && (0 <? max_str_digits) && (max_str_digits <? digits))%nat.

Definition default_max_str_digits : nat := 4300.

(** [int(s)] for a string [s]: white space around, an optional sign, the
    digits; anything else, or too many digits, raises [ValueError]. *)
Definition py_int (max_str_digits : nat) (s : string) : Exc Z :=
  let t := rstrip (lstrip s) in
  let '(negative, body) :=
    match t with
    | String c r =>
        if Ascii.eqb c "-" then (true, r)
        else if Ascii.eqb c "+" then (false, r)
        else (false, t)
    | "" => (false, t)
    end in
  match int_digits 0 false body with
  | Some z =>
      if exceeds_digit_limit max_str_digits (digit_count body) then Raise ValueError
      else Ok (if negative then - z else z)
  | None => Raise ValueError
  end.

(** ** Regular expressions ([re])

    The patterns of [RedshiftDatatype] are kept as syntax and run by a
    backtracking matcher.  Quantifiers apply to character classes only,
    which is all these patterns use; there is one capturing group per
    pattern.  A leading [^] (no MULTILINE) is the [anchored] field. *)

Inductive regex : Type :=
| Lit (c : ascii)
| Class (p : ascii -> bool)
| Rep (greedy : bool) (lo : nat) (hi : option nat) (p : ascii -> bool)
| Seq (r1 r2 : regex)
| Alt (r1 r2 : regex)
| Group (r : regex).

Record pattern : Type := mk_pattern { anchored : bool; body : regex }.

Declare Scope regex_scope.
Delimit Scope regex_scope with re.
Bind Scope regex_scope with regex.
Infix "·" := Seq (at level 40, left associativity) : regex_scope.
Infix "|||" := Alt (at level 50, left associativity) : regex_scope.

(** [p+], [p{1}], [p?], [p*?] *)
Definition plus (p : ascii -> bool) : regex := Rep true 1 None p.
Definition exactly_one (p : ascii -> bool) : regex := Rep true 1 (Some 1%nat) p.
Definition optional (p : ascii -> bool) : regex := Rep true 0 (Some 1%nat) p.
Definition lazy_star (p : ascii -> bool) : regex := Rep false 0 None p.

Definition or_else {A : Type} (x y : option A) : option A :=
  match x with
  | Some a => Some a
  | None => y
  end.

(** An upper bound [hi] on the characters still to take leaves room for
    one more. *)
Definition may_take (hi : option nat) : bool :=
  match hi with
  | Some O => false
  | _ => true
  end.

(** What a successful match yields: the text of group 1, when the group
    took part. *)
Definition captured : Type := option string.

(** [rep greedy p k lo hi s]: between [lo] and [hi] characters of class
    [p] from the front of [s], then [k] on the rest; a greedy
    quantifier tries to take one more first, a lazy one to stop. *)
Fixpoint rep (greedy : bool) (p : ascii -> bool) (k : string -> option captured)
    (lo : nat) (hi : option nat) (s : string) {struct s} : option captured :=
  let stop := if Nat.eqb lo 0 then k s else None in
  let more :=
    match s with
    | "" => None
    | String c r =>
        if may_take hi && p c
        then rep greedy p k (Nat.pred lo) (option_map Nat.pred hi) r
        else None
    end in
  if greedy then or_else more stop else or_else stop more.

(** [matches r s g k]: match [r] at the front of [s], group 1 being [g]
    so far, then continue with [k] on what is left. *)
Fixpoint matches (r : regex) (s : string) (g : captured)
    (k : string -> captured -> option captured) : option captured :=
  match r with
  | Lit c =>
      match s with
      | String c' s' => if Ascii.eqb c c' then k s' g else None
      | "" => None
      end
  | Class p =>
      match s with
      | String c' s' => if p c' then k s' g else None
      | "" => None
      end
  | Rep greedy lo hi p => rep greedy p (fun s' => k s' g) lo hi s
  | Seq r1 r2 => matches r1 s g (fun s' g' => matches r2 s' g' k)
  | Alt r1 r2 => or_else (matches r1 s g k) (matches r2 s g k)
  | Group r1 =>
      matches r1 s g
        (fun s' _ => k s' (Some (substring 0 (String.length s - String.length s') s)))
  end.

Definition match_at (r : regex) (s : string) : option captured :=
  matches r s None (fun _ g => Some g).

(** The leftmost position at which [r] matches. *)
Fixpoint scan (r : regex) (s : string) : option captured :=
  or_else (match_at r s)
          match s with
          | "" => None
          | String _ s' => scan r s'
          end.

(** [re.search(p, s)]: [None] when there is no match. *)
Definition re_search (p : pattern) (s : string) : option captured :=
  if anchored p then match_at (body p) s else scan (body p) s.

(** The truth value of [re.findall(p, s)]: the list of matches is
    non-empty exactly when there is a first match. *)
Definition findall_truthy (p : pattern) (s : string) : bool :=
  match re_search p s with
  | Some _ => true
  | None => false
  end.

(** [m.group(1)] followed by a [str] method: [m] is [None] when the search
    failed, and the group is [None] when it took no part; both raise
    [AttributeError]. *)
Definition group1 (m : option captured) : Exc string :=
  match m with
  | Some (Some g) => Ok g
  | _ => Raise AttributeError
  end.

(** ** The validators of [validators.py] *)

Module String_.
Definition tag : string := "str".
Definition _is_valid (value : Value) : bool := isstr value.
End String_.

Module Number.
Definition tag : string := "num".
Definition _is_valid (value : Value) : bool :=
  isinstance_int value || isinstance_float value.
End Number.

Module Integer.
Definition tag : string := "int".
Definition _is_valid (value : Value) : bool := isinstance_int value.
End Integer.

Module Boolean.
Definition tag : string := "bool".
Definition _is_valid (value : Value) : bool := isinstance_bool value.
End Boolean.

Module Day.
Definition tag : string := "day".
Definition _is_valid (value : Value) : bool := isinstance_date value.
End Day.

Module Timestamp.
Definition tag : string := "timestamp".
Definition _is_valid (value : Value) : bool := isinstance_datetime value.
End Timestamp.

Module Map.
Definition tag : string := "map".
Definition _is_valid (value : Value) : bool := isinstance_Mapping value.
End Map.

Module List_.
Definition tag : string := "list".
Definition _is_valid (value : Value) : bool :=
  isinstance_Sequence value && negb (isstr value).
End List_.

Module Include.
Definition tag : string := "include".
Definition _is_valid (value : Value) : bool := true.
End Include.

Module Any.
Definition tag : string := "any".
Definition _is_valid (value : Value) : bool := true.
End Any.

Module Null.
Definition tag : string := "null".
Definition _is_valid (value : Value) : bool :=
  match value with VNull => true | _ => false end.
End Null.

Module RedshiftDatatype.
Definition tag : string := "redshift_datatype".

(** ["^[a-zA-Z\s]+\((\d+|MAX)\)"] *)
Definition single_arg_pattern : pattern :=
  mk_pattern true
    (plus is_letter_or_space · Lit "("
     · Group (plus is_digit ||| Lit "M" · Lit "A" · Lit "X")
     · Lit ")")%re.

(** ["^[a-zA-Z\s]+\((\d+[,]{1}[ ]?\d+|MAX)\)"] *)
Definition multiple_arg_pattern : pattern :=
  mk_pattern true
    (plus is_letter_or_space · Lit "("
     · Group (plus is_digit · exactly_one (is_char ",") · optional (is_char " ")
              · plus is_digit
              ||| Lit "M" · Lit "A" · Lit "X")
     · Lit ")")%re.

(** [r'\((.*?)\)'], the pattern both helpers search for the argument. *)
Definition bracket_pattern : pattern :=
  mk_pattern false (Lit "(" · Group (lazy_star is_dot) · Lit ")")%re.

Definition aliases : gmap string string :=
  list_to_map
    [("CHAR", "CHAR"); ("CHARACTER", "CHAR"); ("BPCHAR", "CHAR"); ("NCHAR", "CHAR");
     ("VARCHAR", "VARCHAR"); ("CHARACTER VARYING", "VARCHAR"); ("NVARCHAR", "VARCHAR")].

Definition str_ranges : gmap string (Z * Z) :=
  list_to_map [("CHAR", (1, 4096)); ("VARCHAR", (1, 65535))].

Definition num_ranges : gmap string (Z * Z) :=
  list_to_map [("PRECISION", (1, 38)); ("SCALE", (0, 37))].

Definition one_optional_arg : list string :=
  ["CHAR"; "CHARACTER"; "NCHAR"; "BPCHAR"; "VARCHAR"; "CHARACTER VARYING"; "NVARCHAR"].

Definition two_optional_args : list string := ["DECIMAL"; "NUMERIC"].

Definition no_optional_args : list string :=
  ["SMALLINT"; "INT2"; "INTEGER"; "INT"; "INT4"; "BIGINT"; "INT8"; "REAL"; "FLOAT4"; "DATE";
   "DOUBLE PRECISION"; "FLOAT8"; "FLOAT"; "BOOLEAN"; "BOOL"; "TIMESTAMP"; "TIMESTAMPTZ";
   "TIMESTAMP WITHOUT TIME ZONE"; "TIMESTAMP WITH TIME ZONE"; "GEOMETRY"; "TEXT"].

Definition all_args : list string :=
  one_optional_arg ++ two_optional_args ++ no_optional_args.

(** [lo <= x <= hi] for a range given as a pair. *)
Definition in_range (r : Z * Z) (x : Z) : bool := (r.1 <=? x) && (x <=? r.2).

Definition valid_without_argument (value : string) : bool :=
  str_in (upper value) all_args.

Section Interpreter.
(** [sys.get_int_max_str_digits()], which [int] obeys. *)
Variable max_str_digits : nat.

Definition valid_single_argument (value : string) : Exc bool :=
  if findall_truthy single_arg_pattern value then
    type_ ← list_getitem (split "(" value) 0;
    group ← group1 (re_search bracket_pattern value);
    let arg_ := replace_empty " " group in
    if str_in type_ one_optional_arg then
      alias ← getitem aliases type_;
      valid_range ← getitem str_ranges alias;
      if String.eqb arg_ "MAX" then Ok true
      else n ← py_int max_str_digits arg_; Ok (in_range valid_range n)
    else Ok false
  else Ok false.

(** The function returns [True] or falls off its end, that is [None]. *)
Definition valid_double_argument (value : string) : Exc Value :=
  if findall_truthy multiple_arg_pattern value then
    type_ ← list_getitem (split "(" value) 0;
    if str_in type_ two_optional_args then
      group ← group1 (re_search bracket_pattern value);
      args_ ← mapM (py_int max_str_digits) (split "," (replace_empty " " group));
      precision ← getitem num_ranges "PRECISION";
      arg0 ← list_getitem args_ 0;
      let valid_precision := in_range precision arg0 in
      scale ← getitem num_ranges "SCALE";
      arg1 ← list_getitem args_ 1;
      let valid_scale := in_range scale arg1 in
      if valid_precision && valid_scale && (arg0 >? arg1) then Ok (VBool true)
      else Ok VNull
    else Ok VNull
  else Ok VNull.

(** [any([...])]: the list is built first, so the three helpers all run,
    in this order, whatever the earlier ones returned. *)
Definition _is_valid (value : Value) : Exc bool :=
  match value with
  | VStr s =>
      let without := valid_without_argument s in
      single ← valid_single_argument s;
      double ← valid_double_argument s;
      Ok (existsb truthy [VBool without; VBool single; double])
  | _ => Ok false
  end.
End Interpreter.
End RedshiftDatatype.

(** [kwargs.pop(k, False)] used as a condition: the truth value of the
    option and the keyword arguments that remain. *)
Definition pop_flag (k : string) (kwargs : gmap string Value) : bool * gmap string Value :=
  (match kwargs !! k with Some v => truthy v | None => false end, delete k kwargs).

(** Whether the option [k] was given with a true value. *)
Definition option_set (k : string) (kwargs : gmap string Value) : bool :=
  (pop_flag k kwargs).1.

(** [kwargs.pop(k, None)] *)
Definition pop_value (k : string) (kwargs : gmap string Value) : Value * gmap string Value :=
  (match kwargs !! k with Some v => v | None => VNull end, delete k kwargs).

Module Regex.
Definition tag : string := "regex".

(** [re.I], [re.M], [re.S] *)
Definition re_I : Z := 2.
Definition re_M : Z := 8.
Definition re_S : Z := 16.

Definition _regex_flags : list (string * Z) :=
  [("ignore_case", re_I); ("multiline", re_M); ("dotall", re_S)].

(** [re.compile(arg, flags)]: the pattern text and the flags it was
    compiled with.  What the pattern matches is the [re] module's
    business, see [re_match] below. *)
Record compiled : Type := compile { source : string; flags : Z }.

Record t : Type := mk { regex_name : Value; regexes : list compiled }.

(** The loop [for k, v in util.get_iter(self._regex_flags): flags |= v if
    kwargs.pop(k, False) else 0], over the items of the dict. *)
Definition collect_flags (kwargs : gmap string Value) : Z * gmap string Value :=
  fold_left
    (fun '(flags, kwargs) '(k, v) =>
       let '(set, kwargs) := pop_flag k kwargs in
       (Z.lor flags (if set then v else 0), kwargs))
    _regex_flags (0, kwargs).

(** The strings among the positional arguments, in order. *)
Fixpoint str_args (args : list Value) : list string :=
  match args with
  | [] => []
  | VStr s :: rest => s :: str_args rest
  | _ :: rest => str_args rest
  end.

(** [Regex.__init__]; the keyword arguments left over go to
    [Validator.__init__]. *)
Definition __init__ (args : list Value) (kwargs : gmap string Value) : t :=
  let '(regex_name, kwargs) := pop_value "name" kwargs in
  let '(flags, kwargs) := collect_flags kwargs in
  mk regex_name (map (fun arg => compile arg flags) (str_args args)).

Section Engine.
(** [r.match(value)] as a truth value, for the pattern text and flags of
    [r]: the matching itself is Python's [re] module. *)
Variable re_match : string -> Z -> string -> bool.

Definition _is_valid (self : t) (value : Value) : bool :=
  match value with
  | VStr s => existsb (fun r => re_match (source r) (flags r) s) (regexes self)
  | _ => false
  end.
End Engine.
End Regex.

Module Mac.
Definition tag : string := "mac".

(** [Mac.__init__] replaces the patterns by its own two. *)
Definition __init__ (args : list Value) (kwargs : gmap string Value) : Regex.t :=
  let self := Regex.__init__ args kwargs in
  Regex.mk (Regex.regex_name self)
    [Regex.compile "[0-9a-fA-F]{2}([-:]?)[0-9a-fA-F]{2}(\1[0-9a-fA-F]{2}){4}$" 0;
     Regex.compile "[0-9a-fA-F]{4}([-:]?)[0-9a-fA-F]{4}(\1[0-9a-fA-F]{4})$" 0].
End Mac.

(** ** The built-in registry *)

(** The classes of the module that derive from [Validator]. *)
Inductive validator_class : Type :=
| String_cls | Number_cls | Integer_cls | Boolean_cls | Enum_cls | Day_cls
| Timestamp_cls | Map_cls | RedshiftDatatype_cls | List_cls | Include_cls
| Any_cls | Null_cls | Regex_cls | Ip_cls | Mac_cls.

#[global] Instance validator_class_eq_dec : EqDecision validator_class.
Proof. solve_decision. Defined.

(** [None] stands for the base class [Validator] itself. *)
Definition base_class (v : validator_class) : option validator_class :=
  match v with
  | Mac_cls => Some Regex_cls
  | _ => None
  end.

Definition class_tag (v : validator_class) : string :=
  match v with
  | String_cls => "str" | Number_cls => "num" | Integer_cls => "int"
  | Boolean_cls => "bool" | Enum_cls => "enum" | Day_cls => "day"
  | Timestamp_cls => "timestamp" | Map_cls => "map"
  | RedshiftDatatype_cls => "redshift_datatype" | List_cls => "list"
  | Include_cls => "include" | Any_cls => "any" | Null_cls => "null"
  | Regex_cls => "regex" | Ip_cls => "ip" | Mac_cls => "mac"
  end.

Definition class_name (v : validator_class) : string :=
  match v with
  | String_cls => "String" | Number_cls => "Number" | Integer_cls => "Integer"
  | Boolean_cls => "Boolean" | Enum_cls => "Enum" | Day_cls => "Day"
  | Timestamp_cls => "Timestamp" | Map_cls => "Map"
  | RedshiftDatatype_cls => "RedshiftDatatype" | List_cls => "List"
  | Include_cls => "Include" | Any_cls => "Any" | Null_cls => "Null"
  | Regex_cls => "Regex" | Ip_cls => "Ip" | Mac_cls => "Mac"
  end.

(** The loop that fills [DefaultValidators], over the classes in the order
    [util.get_subclasses(Validator)] yields them. *)
Definition register (d : gmap string validator_class) (v : validator_class)
    : gmap string validator_class :=
  <[class_name v := v]> (<[class_tag v := v]> d).

Definition build_registry (subclasses : list validator_class)
    : gmap string validator_class :=
  fold_left register subclasses ∅.

(** [parent.__subclasses__()]: the classes that name [parent] as their
    base, in the order of their definition. *)
Definition direct_subclasses (parent : option validator_class) : list validator_class :=
  List.filter (fun v => bool_decide (base_class v = parent))
    [String_cls; Number_cls; Integer_cls; Boolean_cls; Enum_cls; Day_cls;
     Timestamp_cls; Map_cls; RedshiftDatatype_cls; List_cls; Include_cls;
     Any_cls; Null_cls; Regex_cls; Ip_cls; Mac_cls].

(** Modelled from the spec: [util.get_subclasses] ([yamale/util.py] is
    outside the two files embedded here).  The registry is built "by
    scanning all loaded subclasses": each direct subclass of [Validator],
    followed by its own subclasses (the hierarchy is two levels deep). *)
Definition get_subclasses : list validator_class :=
  flat_map (fun v => v :: direct_subclasses (Some v)) (direct_subclasses None).

Definition DefaultValidators : gmap string validator_class :=
  build_registry get_subclasses.

(** ** [yamale.py] *)

Section MakeData.
(** [readers.parse_file(path, parser)]: the documents of the file, or the
    exception the reader raised. *)
Variable parse_file : string -> string -> Exc (list Value).

(** [raw_data_] is [None] ([VNull]) unless the caller hands in a document. *)
Definition make_data (path parser : string) (raw_data_ : Value)
    : Exc (list (Value * string)) :=
  raw_data ← (if truthy raw_data_ then Ok [raw_data_] else parse_file path parser);
  if (length raw_data =? 0)%nat then Ok [(VMap [], path)]
  else Ok (map (fun d => (d, path)) raw_data).
End MakeData.

(** How a call ended: it returned a value, or raised an exception carrying
    one. *)
Inductive outcome (A B : Type) : Type :=
| Returned (a : A)
| Raised (b : B).

Arguments Returned {A B} a.
Arguments Raised {A B} b.

Section Validate.
(** The schema object, the state of the program outside the arguments of
    the call, and what one per-item validation reports. *)
Variables (Schema Store Report : Type).

(** [schema.validate(d, path, strict)] ([schema.py]): it returns its
    report or raises with it, and may read and change the state. *)
Variable schema_validate :
  Schema -> Value -> string -> bool -> Store -> outcome Report Report * Store.

(** One entry per call of [schema.validate]: the arguments and how the
    call ended. *)
Definition call : Type := Value * string * bool * outcome Report Report.

(** The [for] loop: the calls made, the report of the call that raised (if
    one did), and the state after the loop. *)
Fixpoint validate_loop (schema : Schema) (data : list (Value * string))
    (strict : bool) (st : Store) : list call * option Report * Store :=
  match data with
  | [] => ([], None, st)
  | (d, path) :: rest =>
      let '(o, st') := schema_validate schema d path strict st in
      match o with
      | Returned _ =>
          let '(calls, raised, st'') := validate_loop schema rest strict st' in
          ((d, path, strict, o) :: calls, raised, st'')
      | Raised r => ([(d, path, strict, o)], Some r, st')
      end
  end.

Definition validate (schema : Schema) (data : list (Value * string))
    (strict : bool) (st : Store)
    : outcome (list (Value * string)) Report * list call * Store :=
  let '(calls, raised, st') := validate_loop schema data strict st in
  (match raised with
   | None => Returned data
   | Some r => Raised r
   end, calls, st').

(** How a per-item validation ends depends on its arguments only, not on
    the state it runs in: a built schema is not changed by validating. *)
Definition state_independent : Prop :=
  forall schema d path strict st1 st2,
    (schema_validate schema d path strict st1).1 =
    (schema_validate schema d path strict st2).1.
End Validate.

Arguments validate_loop {Schema Store Report}.
Arguments validate {Schema Store Report}.
Arguments state_independent {Schema Store Report}.

(** ** Vocabulary for the statements about datatype strings *)

Fixpoint all_chars (p : ascii -> bool) (s : string) : bool :=
  match s with
  | "" => true
  | String c r => p c && all_chars p r
  end.

Fixpoint contains (a : ascii) (s : string) : bool :=
  match s with
  | "" => false
  | String c r => Ascii.eqb c a || contains a r
  end.

(** A decimal numeral: one or more of the digits 0-9. *)
Definition is_numeral (d : string) : bool :=
  negb (String.eqb d "") && all_chars is_digit d.

(** The number a decimal numeral denotes. *)
Fixpoint numeral_value_from (acc : Z) (d : string) : Z :=
  match d with
  | "" => acc
  | String c r => numeral_value_from (10 * acc + digit_val c) r
  end.

Definition numeral_value (d : string) : Z := numeral_value_from 0 d.

(** A numeral short enough for [int] to convert it. *)
Definition within_digit_limit (max_str_digits : nat) (d : string) : bool :=
  negb (exceeds_digit_limit max_str_digits (String.length d)).

(** The first character of [s], if any, is not in the class [p]. *)
Definition head_outside (p : ascii -> bool) (s : string) : Prop :=
  match s with
  | "" => True
  | String c _ => p c = false
  end.

(** The keywords that stand for CHAR and those that stand for VARCHAR. *)
Definition char_family : list string := ["CHAR"; "CHARACTER"; "BPCHAR"; "NCHAR"].
Definition varchar_family : list string := ["VARCHAR"; "CHARACTER VARYING"; "NVARCHAR"].

(** The strings on which the datatype predicate raises: a two-argument
    keyword with the argument MAX, or a keyword with a numeral beyond the
    digit limit of [int] among its arguments; any text may follow. *)
Definition raising_text (max_str_digits : nat) (s : string) : Prop :=
  (exists K rest,
      In K RedshiftDatatype.two_optional_args /\
      s = K +:+ "(MAX)" +:+ rest) \/
  (exists K d rest,
      In K RedshiftDatatype.one_optional_arg /\
      is_numeral d = true /\ within_digit_limit max_str_digits d = false /\
      s = K +:+ "(" +:+ d +:+ ")" +:+ rest) \/
  (exists K d1 blank d2 rest,
      In K RedshiftDatatype.two_optional_args /\
      is_numeral d1 = true /\ is_numeral d2 = true /\
      (blank = "" \/ blank = " ") /\
      (within_digit_limit max_str_digits d1 = false \/
       within_digit_limit max_str_digits d2 = false) /\
      s = K +:+ "(" +:+ d1 +:+ "," +:+ blank +:+ d2 +:+ ")" +:+ rest).

(** What the keywords that take arguments look like. *)
Definition keyword_shape (K : string) : Prop :=
  K <> "" /\ all_chars is_letter_or_space K = true /\ contains "(" K = false.

(** ** A small instance of the per-item validation

    A schema that accepts mappings only, run in a state that counts the
    validations made so far.  It is used to exercise the statements about
    [validate] on concrete data. *)
Definition counting_validate (schema : unit) (d : Value) (path : string)
    (strict : bool) (st : nat) : outcome (list string) (list string) * nat :=
  (if Map._is_valid d then Returned [] else Raised [path +:+ ": not a map"], S st).

Definition sample_data : list (Value * string) :=
  [(VMap [], "a.yaml"); (VMap [("k", VInt 1)], "b.yaml"); (VInt 1, "c.yaml");
   (VMap [], "d.yaml")].

(** ** The datatype strings that are accepted *)

(** The bounds on the length argument of a character-type keyword. *)
Definition length_bounds (K : string) : Z * Z :=
  if str_in K char_family then (1, 4096) else (1, 65535).

(** The text before the first opening bracket: [value.split('(')[0]]. *)
Definition type_of_text (s : string) : string := hd "" (split "(" s).

(** The three forms of an accepted string: a keyword in any case and
    nothing else; a character-type keyword with MAX or a length in its
    bounds; DECIMAL or NUMERIC with a precision and a smaller scale.  In
    the bracketed forms the keyword is in upper case, one blank may
    follow the comma, and any text may follow the closing bracket. *)
Definition accepted_text (max_str_digits : nat) (s : string) : Prop :=
  In (upper s) RedshiftDatatype.all_args \/
  (exists K arg rest,
      In K RedshiftDatatype.one_optional_arg /\
      s = K +:+ "(" +:+ arg +:+ ")" +:+ rest /\
      (arg = "MAX" \/
       is_numeral arg = true /\ within_digit_limit max_str_digits arg = true /\
       (length_bounds K).1 <= numeral_value arg <= (length_bounds K).2)) \/
  (exists K d1 blank d2 rest,
      In K RedshiftDatatype.two_optional_args /\
      s = K +:+ "(" +:+ d1 +:+ "," +:+ blank +:+ d2 +:+ ")" +:+ rest /\
      is_numeral d1 = true /\ is_numeral d2 = true /\
      (blank = "" \/ blank = " ") /\
      within_digit_limit max_str_digits d1 = true /\
      within_digit_limit max_str_digits d2 = true /\
      1 <= numeral_value d1 <= 38 /\ 0 <= numeral_value d2 <= 37 /\
      numeral_value d2 < numeral_value d1).

(** ** [make_schema] *)

(** What [make_schema] raises: its own [ValueError] for an empty file, the
    [SyntaxError] it builds from a schema error, or an exception of the
    reader or of the schema code, passed on as it is. *)
Inductive schema_failure (E : Type) : Type :=
| EmptyFile (message : string)
| SchemaError (message : string)
| Propagated (e : E).

Arguments EmptyFile {E} message.
Arguments SchemaError {E} message.
Arguments Propagated {E} e.

Section MakeSchema.
(** The schema object, the registry handed on, and the exceptions of the
    code outside this file. *)
Variables (SchemaObj Validators E : Type).

(** [readers.parse_file(path, parser)] *)
Variable parse_file : string -> string -> outcome (list Value) E.

(** [Schema(raw, path, validators=validators)] and [s.add_include(raw)],
    which changes the schema object [s]. *)
Variable new_schema : Value -> string -> Validators -> outcome SchemaObj E.
Variable add_include : SchemaObj -> Value -> outcome SchemaObj E.

(** [isinstance(e, (TypeError, SyntaxError))] and [str(e)] *)
Variable is_type_or_syntax_error : E -> bool.
Variable str_of_error : E -> string.

(** The loop [for raw_schema in raw_schemas[1:]: s.add_include(raw_schema)]. *)
Fixpoint add_includes (s : SchemaObj) (raw_schemas : list Value)
    : outcome SchemaObj E :=
  match raw_schemas with
  | [] => Returned s
  | raw_schema :: rest =>
      match add_include s raw_schema with
      | Returned s' => add_includes s' rest
      | Raised e => Raised e
      end
  end.

(** The [except (TypeError, SyntaxError) as e] clause. *)
Definition rethrow (path : string) (e : E) : schema_failure E :=
  if is_type_or_syntax_error e
  then SchemaError ("Schema error in file " +:+ path +:+ String "010" (str_of_error e))
  else Propagated e.

Definition make_schema (path parser : string) (validators : Validators)
    (raw_schema_ : Value) : outcome SchemaObj (schema_failure E) :=
  match (if truthy raw_schema_ then Returned [raw_schema_] else parse_file path parser) with
  | Raised e => Raised (Propagated e)
  | Returned [] => Raised (EmptyFile (path +:+ " is an empty file!"))
  | Returned (first :: rest) =>
      match new_schema first path validators with
      | Raised e => Raised (rethrow path e)
      | Returned s =>
          match add_includes s rest with
          | Raised e => Raised (rethrow path e)
          | Returned s' => Returned s'
          end
      end
  end.
End MakeSchema.

Arguments add_includes {SchemaObj E}.
Arguments rethrow {E}.
Arguments make_schema {SchemaObj Validators E}.

(** ** A small instance of the schema code

    A schema object is the list of the documents it was built from; a
    document that is not a mapping is refused with a [TypeError], a null
    include with another exception. *)
Inductive sample_error : Type :=
| SampleTypeError (message : string)
| SampleOtherError.

Definition sample_new_schema (raw : Value) (path : string) (validators : unit)
    : outcome (list Value) sample_error :=
  if Map._is_valid raw then Returned [raw] else Raised (SampleTypeError "not a map").

Definition sample_add_include (s : list Value) (raw : Value)
    : outcome (list Value) sample_error :=
  match raw with
  | VNull => Raised SampleOtherError
  | _ => if Map._is_valid raw then Returned (app s [raw])
         else Raised (SampleTypeError "not a map")
  end.

Definition sample_is_type_error (e : sample_error) : bool :=
  match e with SampleTypeError _ => true | SampleOtherError => false end.

Definition sample_str (e : sample_error) : string :=
  match e with SampleTypeError m => m | SampleOtherError => "other" end.

(** A call that ended by returning. *)
Definition returned {A B : Type} (o : outcome A B) : Prop :=
  match o with Returned _ => True | Raised _ => False end.

(** * Properties *)

(** ** Type predicates that do not look inside the value *)

(** C5: for every data value, the predicates of [Any] and of [Include]
    return [True]. *)
Theorem any_include_accept_everything (v : Value) :
  Any._is_valid v = true /\ Include._is_valid v = true.
Proof. split; reflexivity. Qed.

(** C9: a boolean passes the predicate of [Integer] (as it passes that of
    [Boolean]), and [Number] accepts booleans, integers and floats. *)
Theorem int_and_num_accept_booleans :
  (forall b : bool,
      Integer._is_valid (VBool b) = true /\ Boolean._is_valid (VBool b) = true) /\
  (forall b : bool, Number._is_valid (VBool b) = true) /\
  (forall z : Z, Number._is_valid (VInt z) = true) /\
  (forall f : spec_float, Number._is_valid (VFloat f) = true).
Proof. repeat split. Qed.

(** C10: no string passes the predicate of [List], although a string is a
    [Sequence]. *)
Theorem list_rejects_strings (s : string) :
  isinstance_Sequence (VStr s) = true /\ List_._is_valid (VStr s) = false.
Proof. split; reflexivity. Qed.

(** ** [make_data] *)

(** C6: when no document is handed in and the reader yields no document,
    [make_data] returns the single pair of the empty mapping and the path;
    when the reader yields documents, it returns them in order, each
    paired with the path. *)
Theorem make_data_documents
    (parse_file : string -> string -> Exc (list Value))
    (path parser : string) (raw_data_ : Value) (docs : list Value)
    (Hraw : truthy raw_data_ = false)
    (Hparse : parse_file path parser = Ok docs) :
  (docs = [] ->
   make_data parse_file path parser raw_data_ = Ok [(VMap [], path)]) /\
  (docs <> [] ->
   exists result,
     make_data parse_file path parser raw_data_ = Ok result /\
     length result = length docs /\
     forall i d, docs !! i = Some d <-> result !! i = Some (d, path)).
Proof.
  unfold make_data. rewrite Hraw, Hparse. cbn. split.
  - intros ->. reflexivity.
  - intros Hne. destruct docs as [|d0 docs']; [congruence|]. cbn.
    eexists; split; [reflexivity|]. split.
    + cbn. rewrite length_map. reflexivity.
    + intros i d. change ((d0, path) :: map (fun d => (d, path)) docs')
        with (map (fun d : Value => (d, path)) (d0 :: docs')).
      rewrite list_lookup_fmap.
      destruct ((d0 :: docs') !! i) as [d'|]; cbn; split; congruence.
Qed.

Lemma make_data_documents_witness :
  truthy VNull = false /\
  (fun _ _ : string => Ok (@nil Value)) "data.yaml" "PyYAML" = Ok [] /\
  make_data (fun _ _ => Ok []) "data.yaml" "PyYAML" VNull = Ok [(VMap [], "data.yaml")].
Proof.
  split; [reflexivity|]. split; [reflexivity|].
  apply (make_data_documents (fun _ _ => Ok []) "data.yaml" "PyYAML" VNull []);
    reflexivity.
Defined.

(** ** [validate] *)

Section ValidateProperties.
Context {Schema Store Report : Type}.
Variable schema_validate :
  Schema -> Value -> string -> bool -> Store -> outcome Report Report * Store.

Lemma validate_loop_state_independent (schema : Schema) (strict : bool) :
  state_independent schema_validate ->
  forall data st1 st2,
    (validate_loop schema_validate schema data strict st1).1 =
    (validate_loop schema_validate schema data strict st2).1.
Proof.
  intros Hind data. induction data as [|[d path] rest IH]; intros st1 st2.
  - reflexivity.
  - cbn [validate_loop].
    pose proof (Hind schema d path strict st1 st2) as Hd.
    destruct (schema_validate schema d path strict st1) as [o1 st1'].
    destruct (schema_validate schema d path strict st2) as [o2 st2'].
    cbn in Hd. subst o2. destruct o1 as [r|r]; [|reflexivity].
    specialize (IH st1' st2').
    destruct (validate_loop _ schema rest strict st1') as [[c1 r1] s1].
    destruct (validate_loop _ schema rest strict st2') as [[c2 r2] s2].
    cbn in IH |- *. injection IH as -> ->. reflexivity.
Qed.

(** The calls the loop makes are made on the items of [data], in order and
    with the [strict] flag of the call, up to the first one that raises. *)
Lemma validate_loop_calls (schema : Schema) (strict : bool) data st :
  let calls := (validate_loop schema_validate schema data strict st).1.1 in
  exists n, map (fun c => (c.1.1.1, c.1.1.2, c.1.2)) calls
            = map (fun item => (item.1, item.2, strict)) (take n data).
Proof.
  revert st. induction data as [|[d path] rest IH]; intros st; cbn zeta.
  - exists 0%nat. reflexivity.
  - cbn [validate_loop].
    destruct (schema_validate schema d path strict st) as [o st'].
    destruct o as [r|r].
    + destruct (IH st') as [n Hn]. cbn zeta in Hn.
      destruct (validate_loop _ schema rest strict st') as [[c1 r1] s1].
      exists (S n). cbn in Hn |- *. rewrite Hn. reflexivity.
    + exists 1%nat. cbn. rewrite take_0. reflexivity.
Qed.
End ValidateProperties.



(** ** The registry *)

(** A key is the tag or the name of one class only. *)
Lemma registry_keys_distinct (V W : validator_class) :
  class_tag W = class_tag V \/ class_name W = class_tag V \/
  class_tag W = class_name V \/ class_name W = class_name V ->
  W = V.
Proof.
  destruct V, W; cbn; intros [H|[H|[H|H]]];
    first [reflexivity | discriminate H].
Qed.

Lemma register_lookup_own (d : gmap string validator_class) (V : validator_class) :
  register d V !! class_tag V = Some V /\ register d V !! class_name V = Some V.
Proof.
  unfold register. split.
  - destruct (decide (class_name V = class_tag V)) as [e|ne].
    + rewrite e. apply lookup_insert_eq.
    + rewrite lookup_insert_ne by exact ne. apply lookup_insert_eq.
  - apply lookup_insert_eq.
Qed.

Lemma register_lookup_keeps (d : gmap string validator_class) (V W : validator_class)
    (k : string) :
  k = class_tag V \/ k = class_name V ->
  d !! k = Some V ->
  register d W !! k = Some V.
Proof.
  intros Hk Hd. unfold register.
  destruct (decide (class_name W = k)) as [e1|n1].
  - assert (W = V) as -> by (apply registry_keys_distinct; destruct Hk; subst k; auto).
    rewrite <- e1. apply lookup_insert_eq.
  - rewrite lookup_insert_ne by exact n1.
    destruct (decide (class_tag W = k)) as [e2|n2].
    + assert (W = V) as -> by (apply registry_keys_distinct; destruct Hk; subst k; auto).
      rewrite <- e2. apply lookup_insert_eq.
    + rewrite lookup_insert_ne by exact n2. exact Hd.
Qed.

(** Whatever the order in which the classes are enumerated, a class that
    is enumerated ends up under both of its keys. *)
Lemma build_registry_resolves (subclasses : list validator_class) (V : validator_class) :
  In V subclasses ->
  build_registry subclasses !! class_tag V = Some V /\
  build_registry subclasses !! class_name V = Some V.
Proof.
  unfold build_registry.
  assert (Hgen : forall k, k = class_tag V \/ k = class_name V ->
            forall l d, d !! k = Some V \/ In V l ->
                        fold_left register l d !! k = Some V).
  { intros k Hk l. induction l as [|W l IH]; intros d Hd; cbn.
    - destruct Hd as [Hd|[]]. exact Hd.
    - apply IH. destruct Hd as [Hd|[->|Hin]].
      + left. apply register_lookup_keeps; assumption.
      + left. destruct (register_lookup_own d V) as [Ht Hn].
        destruct Hk as [->| ->]; assumption.
      + right. exact Hin. }
  intros Hin. split; apply Hgen; auto.
Qed.

Lemma get_subclasses_complete (V : validator_class) : In V get_subclasses.
Proof. destruct V; vm_compute; tauto. Qed.

(** C8: every built-in validator class, [Mac] (which derives from [Regex])
    among them, is found in [DefaultValidators] under its tag and under
    its class name. *)
Theorem default_validators_resolve (V : validator_class) :
  DefaultValidators !! class_tag V = Some V /\
  DefaultValidators !! class_name V = Some V.
Proof.
  unfold DefaultValidators. apply build_registry_resolves, get_subclasses_complete.
Qed.

(** ** [Regex] *)

Lemma existsb_first {A : Type} (f : A -> bool) (l : list A) :
  existsb f l = true ->
  exists i x, l !! i = Some x /\ f x = true /\
              forall j y, (j < i)%nat -> l !! j = Some y -> f y = false.
Proof.
  induction l as [|a l IH]; cbn; [discriminate|].
  destruct (f a) eqn:Ha; cbn.
  - intros _. exists 0%nat, a. repeat split; [exact Ha|]. intros j y Hj. lia.
  - intros H. destruct (IH H) as (i & x & Hi & Hx & Hfirst).
    exists (S i), x. repeat split; [exact Hi | exact Hx |].
    intros [|j] y Hj Hy; cbn in Hy.
    + congruence.
    + apply (Hfirst j); [lia | exact Hy].
Qed.

Lemma collect_flags_value (kwargs : gmap string Value) :
  (Regex.collect_flags kwargs).1 =
  Z.lor (Z.lor (Z.lor 0 (if option_set "ignore_case" kwargs then Regex.re_I else 0))
               (if option_set "multiline" kwargs then Regex.re_M else 0))
        (if option_set "dotall" kwargs then Regex.re_S else 0).
Proof.
  unfold Regex.collect_flags, option_set, pop_flag. cbn [fold_left Regex._regex_flags fst snd].
  rewrite !lookup_delete_ne by discriminate. reflexivity.
Qed.

(** C4: the predicate of [Regex] holds exactly for a string that one of the
    compiled patterns matches, the first such pattern in declaration
    order deciding; and every pattern of an instance is compiled with the
    flags of the options [ignore_case], [multiline] and [dotall] that
    were set, OR-ed together. *)
Theorem regex_matches_any_pattern (re_match : string -> Z -> string -> bool) :
  (forall (self : Regex.t) (value : Value),
      Regex._is_valid re_match self value = true <->
      exists s, value = VStr s /\
        exists r, In r (Regex.regexes self) /\
                  re_match (Regex.source r) (Regex.flags r) s = true) /\
  (forall (self : Regex.t) (value : Value),
      Regex._is_valid re_match self value = true ->
      exists s i r, value = VStr s /\ Regex.regexes self !! i = Some r /\
        re_match (Regex.source r) (Regex.flags r) s = true /\
        forall j r', (j < i)%nat -> Regex.regexes self !! j = Some r' ->
                     re_match (Regex.source r') (Regex.flags r') s = false) /\
  (forall (args : list Value) (kwargs : gmap string Value),
      let self := Regex.__init__ args kwargs in
      let ignore_case := option_set "ignore_case" kwargs in
      let multiline := option_set "multiline" kwargs in
      let dotall := option_set "dotall" kwargs in
      map Regex.source (Regex.regexes self) = Regex.str_args args /\
      forall r, In r (Regex.regexes self) ->
        Regex.flags r =
          Z.lor (Z.lor (Z.lor 0 (if ignore_case then Regex.re_I else 0))
                       (if multiline then Regex.re_M else 0))
                (if dotall then Regex.re_S else 0) /\
        Z.land (Regex.flags r) Regex.re_I = (if ignore_case then Regex.re_I else 0) /\
        Z.land (Regex.flags r) Regex.re_M = (if multiline then Regex.re_M else 0) /\
        Z.land (Regex.flags r) Regex.re_S = (if dotall then Regex.re_S else 0)).
Proof.
  split; [|split].
  - intros self value. unfold Regex._is_valid. split.
    + destruct value; try discriminate. intros H.
      apply existsb_exists in H as (r & Hin & Hr). eauto.
    + intros (s & -> & r & Hin & Hr). apply existsb_exists. eauto.
  - intros self value. unfold Regex._is_valid.
    destruct value; try discriminate. intros H.
    apply existsb_first in H as (i & r & Hi & Hr & Hfirst).
    exists s, i, r. repeat split; assumption.
  - intros args kwargs. cbn zeta. unfold Regex.__init__.
    destruct (pop_value "name" kwargs) as [name kwargs1] eqn:Hname.
    destruct (Regex.collect_flags kwargs1) as [flags kwargs2] eqn:Hflags.
    assert (Hsame : forall k, k <> "name" -> option_set k kwargs1 = option_set k kwargs).
    { intros k Hk. unfold pop_value in Hname. injection Hname as _ <-.
      unfold option_set, pop_flag. cbn. rewrite lookup_delete_ne by congruence.
      reflexivity. }
    pose proof (collect_flags_value kwargs1) as Hv. rewrite Hflags in Hv. cbn [fst] in Hv.
    rewrite !Hsame in Hv by discriminate.
    cbn [Regex.regexes]. split.
    + rewrite map_map. cbn. apply map_id.
    + intros r Hin. apply in_map_iff in Hin as (src & <- & _). cbn [Regex.flags].
      rewrite Hv.
      destruct (option_set "ignore_case" kwargs), (option_set "multiline" kwargs),
        (option_set "dotall" kwargs); vm_compute; repeat split.
Qed.

(** ** Strings *)

Lemma append_nil (b : string) : "" +:+ b = b.
Proof. reflexivity. Qed.

Lemma append_cons (x : ascii) (a b : string) : String x a +:+ b = String x (a +:+ b).
Proof. reflexivity. Qed.

Lemma append_assoc (a b c : string) : (a +:+ b) +:+ c = a +:+ (b +:+ c).
Proof.
  induction a as [|x a IH]; [reflexivity|].
  rewrite !append_cons, IH. reflexivity.
Qed.

Lemma length_append (a b : string) :
  String.length (a +:+ b) = (String.length a + String.length b)%nat.
Proof.
  induction a as [|x a IH]; [reflexivity|].
  rewrite append_cons. cbn. rewrite IH. reflexivity.
Qed.

Lemma substring_prefix (a b : string) :
  substring 0 (String.length (a +:+ b) - String.length b) (a +:+ b) = a.
Proof.
  rewrite length_append. replace (_ + _ - _)%nat with (String.length a) by lia.
  induction a as [|x a IH].
  - rewrite append_nil. destruct b; reflexivity.
  - rewrite append_cons. cbn. rewrite IH. reflexivity.
Qed.

Lemma all_chars_append (p : ascii -> bool) (a b : string) :
  all_chars p (a +:+ b) = all_chars p a && all_chars p b.
Proof.
  induction a as [|x a IH]; [reflexivity|].
  rewrite append_cons. cbn. rewrite IH. apply andb_assoc.
Qed.

Lemma contains_append (c : ascii) (a b : string) :
  contains c (a +:+ b) = contains c a || contains c b.
Proof.
  induction a as [|x a IH]; [reflexivity|].
  rewrite append_cons. cbn. rewrite IH. apply orb_assoc.
Qed.

(** A class that excludes a character excludes it from its runs. *)
Lemma all_chars_contains (p : ascii -> bool) (a : ascii) (s : string) :
  p a = false -> all_chars p s = true -> contains a s = false.
Proof.
  intros Ha. induction s as [|c r IH]; cbn; [reflexivity|].
  intros [Hc Hr]%andb_true_iff. rewrite (IH Hr), orb_false_r.
  destruct (Ascii.eqb_spec c a) as [->|]; congruence.
Qed.

Lemma is_numeral_inv (d : string) :
  is_numeral d = true ->
  exists c r, d = String c r /\ is_digit c = true /\ all_chars is_digit r = true.
Proof.
  unfold is_numeral. destruct d as [|c r]; cbn; [discriminate|].
  intros [Hc Hr]%andb_true_iff. eauto.
Qed.

(** ** The matcher on runs of one class *)

Lemma rep_greedy_run (p : ascii -> bool) (k : string -> option captured)
    (lo : nat) (run rest : string) :
  all_chars p run = true ->
  head_outside p rest ->
  (forall c t, p c = true -> k (String c t) = None) ->
  rep true p k lo None (run +:+ rest) =
  if (lo <=? String.length run)%nat then k rest else None.
Proof.
  intros Hrun Hrest Hk. revert lo.
  induction run as [|c run IH]; intros lo.
  - rewrite append_nil. destruct rest as [|c r]; cbn.
    + destruct lo; reflexivity.
    + cbn in Hrest. rewrite Hrest. destruct lo; reflexivity.
  - rewrite append_cons. cbn in Hrun. apply andb_true_iff in Hrun as [Hc Hrun].
    cbn [rep may_take option_map andb]. rewrite Hc, (IH Hrun), (Hk _ _ Hc).
    destruct lo as [|lo]; cbn [Nat.pred Nat.eqb String.length Nat.leb].
    + destruct (k rest); reflexivity.
    + destruct (lo <=? String.length run)%nat; [destruct (k rest)|]; reflexivity.
Qed.

(** A lazy run over characters the continuation refuses. *)
Lemma rep_lazy_run (p : ascii -> bool) (k : string -> option captured)
    (run rest : string) :
  all_chars p run = true ->
  (forall c t, contains c run = true -> k (String c t) = None) ->
  rep false p k 0 None (run +:+ rest) = rep false p k 0 None rest.
Proof.
  intros Hrun Hk.
  induction run as [|c run IH].
  - reflexivity.
  - rewrite append_cons. cbn in Hrun. apply andb_true_iff in Hrun as [Hc Hrun].
    cbn [rep may_take option_map andb Nat.eqb Nat.pred]. rewrite Hc.
    rewrite Hk by (cbn; rewrite Ascii.eqb_refl; reflexivity).
    cbn [or_else]. apply IH; [exact Hrun|].
    intros c' t Hc'. apply Hk. cbn. rewrite Hc', orb_true_r. reflexivity.
Qed.

(** Facts about single characters, by enumeration of the 256 of them. *)
Ltac by_ascii_cases c :=
  destruct c as [[] [] [] [] [] [] [] []]; vm_compute; congruence.

Lemma letter_or_space_not_paren (c : ascii) :
  is_letter_or_space c = true -> Ascii.eqb "(" c = false.
Proof. by_ascii_cases c. Qed.

Lemma digit_not_close (c : ascii) : is_digit c = true -> Ascii.eqb ")" c = false.
Proof. by_ascii_cases c. Qed.

Lemma digit_not_comma (c : ascii) : is_digit c = true -> is_char "," c = false.
Proof. by_ascii_cases c. Qed.

Lemma digit_not_M (c : ascii) : is_digit c = true -> Ascii.eqb "M" c = false.
Proof. by_ascii_cases c. Qed.

Lemma digit_not_blank (c : ascii) : is_digit c = true -> is_char " " c = false.
Proof. by_ascii_cases c. Qed.

Lemma digit_is_dot (c : ascii) : is_digit c = true -> is_dot c = true.
Proof. by_ascii_cases c. Qed.

Lemma numeral_length (d : string) : is_numeral d = true -> (1 <=? String.length d)%nat = true.
Proof. intros (c & r & -> & _)%is_numeral_inv. reflexivity. Qed.

Lemma numeral_digits (d : string) : is_numeral d = true -> all_chars is_digit d = true.
Proof. unfold is_numeral. intros [_ H]%andb_true_iff. exact H. Qed.

Lemma nonempty_length (s : string) : s <> "" -> (1 <=? String.length s)%nat = true.
Proof. destruct s; [congruence | reflexivity]. Qed.

(** The three patterns on strings of the shapes the validator accepts. *)

Ltac after_letters Hne Hrun :=
  rewrite rep_greedy_run;
    [ rewrite (nonempty_length _ Hne), Ascii.eqb_refl
    | exact Hrun
    | reflexivity
    | let c := fresh "c" in let t := fresh "t" in let Hc := fresh "Hc" in
      intros c t Hc; rewrite (letter_or_space_not_paren c Hc); reflexivity ].

Lemma single_arg_pattern_numeral (run d rest : string) :
  run <> "" -> all_chars is_letter_or_space run = true ->
  is_numeral d = true ->
  re_search RedshiftDatatype.single_arg_pattern (run +:+ "(" +:+ d +:+ ")" +:+ rest)
  = Some (Some d).
Proof.
  intros Hne Hrun Hd.
  unfold re_search, RedshiftDatatype.single_arg_pattern, match_at, plus.
  cbn [anchored body matches].
  rewrite !append_cons, !append_nil.
  after_letters Hne Hrun.
  rewrite rep_greedy_run; [ | exact (numeral_digits d Hd) | reflexivity | ].
  2:{ intros c t Hc. rewrite (digit_not_close c Hc). reflexivity. }
  rewrite (numeral_length d Hd), Ascii.eqb_refl. cbn [or_else].
  rewrite substring_prefix. reflexivity.
Qed.

Lemma single_arg_pattern_max (run rest : string) :
  run <> "" -> all_chars is_letter_or_space run = true ->
  re_search RedshiftDatatype.single_arg_pattern (run +:+ "(MAX)" +:+ rest)
  = Some (Some "MAX").
Proof.
  intros Hne Hrun.
  unfold re_search, RedshiftDatatype.single_arg_pattern, match_at, plus.
  cbn [anchored body matches].
  rewrite !append_cons, !append_nil.
  after_letters Hne Hrun.
  change (String "M" (String "A" (String "X" (String ")" rest))))
    with ("MAX" +:+ String ")" rest).
  rewrite substring_prefix. reflexivity.
Qed.

Lemma single_arg_pattern_pair (run d1 tail : string) :
  run <> "" -> all_chars is_letter_or_space run = true ->
  is_numeral d1 = true ->
  re_search RedshiftDatatype.single_arg_pattern (run +:+ "(" +:+ d1 +:+ "," +:+ tail)
  = None.
Proof.
  intros Hne Hrun Hd.
  unfold re_search, RedshiftDatatype.single_arg_pattern, match_at, plus.
  cbn [anchored body matches].
  rewrite !append_cons, !append_nil.
  after_letters Hne Hrun.
  rewrite rep_greedy_run; [ | exact (numeral_digits d1 Hd) | reflexivity | ].
  2:{ intros c t Hc. rewrite (digit_not_close c Hc). reflexivity. }
  rewrite (numeral_length d1 Hd).
  change (Ascii.eqb ")" ",") with false. cbn [or_else].
  apply is_numeral_inv in Hd as (c & r & -> & Hc & _).
  rewrite append_cons, (digit_not_M c Hc). reflexivity.
Qed.

Lemma rep_done (greedy : bool) (p : ascii -> bool) (k : string -> option captured)
    (s : string) :
  rep greedy p k 0 (Some 0%nat) s = k s.
Proof.
  destruct s, greedy; cbn; try reflexivity; destruct (k _); reflexivity.
Qed.

Lemma rep_skip (greedy : bool) (p : ascii -> bool) (k : string -> option captured)
    (hi : option nat) (s : string) :
  head_outside p s -> rep greedy p k 0 hi s = k s.
Proof.
  destruct s as [|c r]; cbn.
  - intros _. destruct greedy; [reflexivity | destruct (k ""); reflexivity].
  - intros ->. rewrite andb_false_r.
    destruct greedy; [reflexivity | destruct (k _); reflexivity].
Qed.

Lemma numeral_head_outside (p : ascii -> bool) (d rest : string) :
  is_numeral d = true -> (forall c, is_digit c = true -> p c = false) ->
  head_outside p (d +:+ rest).
Proof.
  intros (c & r & -> & Hc & _)%is_numeral_inv Hp. rewrite append_cons. cbn. auto.
Qed.

Lemma multiple_arg_pattern_pair (run d1 d2 rest : string) :
  run <> "" -> all_chars is_letter_or_space run = true ->
  is_numeral d1 = true -> is_numeral d2 = true ->
  re_search RedshiftDatatype.multiple_arg_pattern
    (run +:+ "(" +:+ d1 +:+ "," +:+ d2 +:+ ")" +:+ rest)
  = Some (Some (d1 +:+ "," +:+ d2)).
Proof.
  intros Hne Hrun Hd1 Hd2.
  unfold re_search, RedshiftDatatype.multiple_arg_pattern, match_at, plus,
    exactly_one, optional.
  cbn [anchored body matches].
  rewrite !append_cons, !append_nil.
  after_letters Hne Hrun.
  rewrite rep_greedy_run; [ | exact (numeral_digits d1 Hd1) | reflexivity | ].
  2:{ intros c t Hc. cbn [rep may_take Nat.eqb]. rewrite (digit_not_comma c Hc).
      reflexivity. }
  rewrite (numeral_length d1 Hd1).
  cbn [rep may_take Nat.eqb option_map Nat.pred].
  change (is_char "," ",") with true. cbn [andb]. rewrite rep_done.
  rewrite rep_skip by (apply numeral_head_outside; [exact Hd2 | exact digit_not_blank]).
  rewrite rep_greedy_run; [ | exact (numeral_digits d2 Hd2) | reflexivity | ].
  2:{ intros c t Hc. rewrite (digit_not_close c Hc). reflexivity. }
  rewrite (numeral_length d2 Hd2), Ascii.eqb_refl. cbn [or_else].
  replace (d1 +:+ String "," (d2 +:+ String ")" rest))
    with ((d1 +:+ String "," d2) +:+ String ")" rest)
    by (rewrite append_assoc, append_cons; reflexivity).
  rewrite substring_prefix. reflexivity.
Qed.

Lemma multiple_arg_pattern_max (run rest : string) :
  run <> "" -> all_chars is_letter_or_space run = true ->
  re_search RedshiftDatatype.multiple_arg_pattern (run +:+ "(MAX)" +:+ rest)
  = Some (Some "MAX").
Proof.
  intros Hne Hrun.
  unfold re_search, RedshiftDatatype.multiple_arg_pattern, match_at, plus,
    exactly_one, optional.
  cbn [anchored body matches].
  rewrite !append_cons, !append_nil.
  after_letters Hne Hrun.
  change (String "M" (String "A" (String "X" (String ")" rest))))
    with ("MAX" +:+ String ")" rest).
  rewrite substring_prefix. reflexivity.
Qed.

Lemma multiple_arg_pattern_numeral (run d rest : string) :
  run <> "" -> all_chars is_letter_or_space run = true ->
  is_numeral d = true ->
  re_search RedshiftDatatype.multiple_arg_pattern (run +:+ "(" +:+ d +:+ ")" +:+ rest)
  = None.
Proof.
  intros Hne Hrun Hd.
  unfold re_search, RedshiftDatatype.multiple_arg_pattern, match_at, plus,
    exactly_one, optional.
  cbn [anchored body matches].
  rewrite !append_cons, !append_nil.
  after_letters Hne Hrun.
  rewrite rep_greedy_run; [ | exact (numeral_digits d Hd) | reflexivity | ].
  2:{ intros c t Hc. cbn [rep may_take Nat.eqb]. rewrite (digit_not_comma c Hc).
      reflexivity. }
  rewrite (numeral_length d Hd).
  cbn [rep may_take Nat.eqb option_map Nat.pred].
  change (is_char "," ")") with false. cbn [andb or_else].
  apply is_numeral_inv in Hd as (c & r & -> & Hc & _).
  rewrite append_cons, (digit_not_M c Hc). reflexivity.
Qed.


Lemma bracket_pattern_first (pre inner rest : string) :
  contains "(" pre = false ->
  all_chars is_dot inner = true -> contains ")" inner = false ->
  re_search RedshiftDatatype.bracket_pattern (pre +:+ "(" +:+ inner +:+ ")" +:+ rest)
  = Some (Some inner).
Proof.
  intros Hpre Hdot Hclose.
  unfold re_search, RedshiftDatatype.bracket_pattern, lazy_star.
  cbn [anchored body].
  rewrite !append_cons, !append_nil.
  induction pre as [|c pre IH].
  - rewrite append_nil. cbn [scan]. unfold match_at. cbn [matches].
    rewrite Ascii.eqb_refl.
    rewrite rep_lazy_run; [ | exact Hdot | ].
    2:{ intros c t Hc. destruct (Ascii.eqb_spec ")" c) as [<-|]; [congruence | reflexivity]. }
    cbn [rep Nat.eqb]. rewrite Ascii.eqb_refl. cbn [or_else].
    rewrite substring_prefix. reflexivity.
  - rewrite append_cons. cbn [contains] in Hpre.
    apply orb_false_iff in Hpre as [Hc Hpre].
    cbn [scan]. unfold match_at at 1. cbn [matches].
    rewrite Ascii.eqb_sym, Hc. cbn [or_else]. exact (IH Hpre).
Qed.

(** ** The string methods on the strings that reach them *)

Lemma split_at_first (sep : ascii) (pre rest : string) :
  contains sep pre = false ->
  split sep (pre +:+ String sep rest) = pre :: split sep rest.
Proof.
  induction pre as [|c pre IH]; intros Hpre.
  - rewrite append_nil. cbn. rewrite Ascii.eqb_refl. reflexivity.
  - rewrite append_cons. cbn in Hpre |- *.
    apply orb_false_iff in Hpre as [Hc Hpre]. rewrite Hc, (IH Hpre). reflexivity.
Qed.

Lemma split_without (sep : ascii) (s : string) :
  contains sep s = false -> split sep s = [s].
Proof.
  induction s as [|c s IH]; cbn; [reflexivity|].
  intros [Hc Hs]%orb_false_iff. rewrite Hc, (IH Hs). reflexivity.
Qed.

Lemma replace_empty_without (c : ascii) (s : string) :
  contains c s = false -> replace_empty c s = s.
Proof.
  induction s as [|x s IH]; cbn; [reflexivity|].
  intros [Hc Hs]%orb_false_iff. rewrite Hc, (IH Hs). reflexivity.
Qed.

Lemma digit_not_space (c : ascii) : is_digit c = true -> is_int_space c = false.
Proof. by_ascii_cases c. Qed.

Lemma digit_not_sign (c : ascii) :
  is_digit c = true -> Ascii.eqb c "-" = false /\ Ascii.eqb c "+" = false.
Proof. destruct c as [[] [] [] [] [] [] [] []]; vm_compute; intuition congruence. Qed.

Lemma rstrip_digits (s : string) : all_chars is_digit s = true -> rstrip s = s.
Proof.
  induction s as [|c s IH]; cbn; [reflexivity|].
  intros [Hc Hs]%andb_true_iff. rewrite (IH Hs), (digit_not_space c Hc).
  destruct s; reflexivity.
Qed.

Lemma int_digits_numeral (d : string) (acc : Z) (after_digit : bool) :
  all_chars is_digit d = true -> d <> "" \/ after_digit = true ->
  int_digits acc after_digit d = Some (numeral_value_from acc d).
Proof.
  revert acc after_digit. induction d as [|c d IH]; intros acc after_digit; cbn.
  - intros _ [H| ->]; [congruence | reflexivity].
  - intros [Hc Hd]%andb_true_iff _. rewrite Hc. apply IH; auto.
Qed.

Lemma digit_count_digits (d : string) :
  all_chars is_digit d = true -> digit_count d = String.length d.
Proof.
  induction d as [|c d IH]; cbn; [reflexivity|].
  intros [Hc Hd]%andb_true_iff. rewrite Hc, (IH Hd). reflexivity.
Qed.

(** [int] on a numeral within the limit is the number it denotes. *)
Lemma py_int_numeral (max_str_digits : nat) (d : string) :
  is_numeral d = true -> within_digit_limit max_str_digits d = true ->
  py_int max_str_digits d = Ok (numeral_value d).
Proof.
  intros Hd Hfit. pose proof (numeral_digits d Hd) as Hall.
  apply negb_true_iff in Hfit. rewrite <- (digit_count_digits d Hall) in Hfit.
  destruct (is_numeral_inv d Hd) as (c & r & -> & Hc & Hr).
  unfold py_int. cbn [lstrip]. rewrite (digit_not_space c Hc), (rstrip_digits _ Hall).
  destruct (digit_not_sign c Hc) as [-> ->].
  rewrite int_digits_numeral by (auto; left; discriminate).
  rewrite Hfit. reflexivity.
Qed.

(** Beyond the limit [int] raises. *)
Lemma py_int_numeral_too_long (max_str_digits : nat) (d : string) :
  is_numeral d = true -> within_digit_limit max_str_digits d = false ->
  py_int max_str_digits d = Raise ValueError.
Proof.
  intros Hd Hfit. pose proof (numeral_digits d Hd) as Hall.
  apply negb_false_iff in Hfit. rewrite <- (digit_count_digits d Hall) in Hfit.
  destruct (is_numeral_inv d Hd) as (c & r & -> & Hc & Hr).
  unfold py_int. cbn [lstrip]. rewrite (digit_not_space c Hc), (rstrip_digits _ Hall).
  destruct (digit_not_sign c Hc) as [-> ->].
  rewrite int_digits_numeral by (auto; left; discriminate).
  rewrite Hfit. reflexivity.
Qed.

Lemma str_in_In (x : string) (l : list string) : str_in x l = true <-> In x l.
Proof.
  unfold str_in. rewrite existsb_exists. split.
  - intros (y & Hin & ->%String.eqb_eq). exact Hin.
  - intros Hin. exists x. split; [exact Hin | apply String.eqb_refl].
Qed.

(** ** Keywords *)

Lemma upper_char_paren (c : ascii) : Ascii.eqb (upper_char c) "(" = Ascii.eqb c "(".
Proof. destruct c as [[] [] [] [] [] [] [] []]; reflexivity. Qed.

Lemma contains_paren_upper (s : string) : contains "(" (upper s) = contains "(" s.
Proof.
  induction s as [|c s IH]; cbn; [reflexivity|].
  rewrite upper_char_paren, IH. reflexivity.
Qed.

Lemma all_args_no_paren (x : string) :
  In x RedshiftDatatype.all_args -> contains "(" x = false.
Proof.
  intros H. repeat (destruct H as [<-|H]; [reflexivity|]). destruct H.
Qed.

(** A string with an opening bracket is not a bare keyword. *)
Lemma valid_without_argument_paren (s : string) :
  contains "(" s = true -> RedshiftDatatype.valid_without_argument s = false.
Proof.
  intros Hs. unfold RedshiftDatatype.valid_without_argument.
  destruct (str_in (upper s) RedshiftDatatype.all_args) eqn:Hin; [|reflexivity].
  apply str_in_In, all_args_no_paren in Hin.
  rewrite contains_paren_upper in Hin. congruence.
Qed.

Lemma contains_bracketed (a : ascii) (pre rest : string) :
  contains a (pre +:+ String a rest) = true.
Proof.
  rewrite contains_append. cbn. rewrite Ascii.eqb_refl, orb_true_r. reflexivity.
Qed.

Lemma one_optional_arg_shape (K : string) :
  In K RedshiftDatatype.one_optional_arg ->
  keyword_shape K /\ str_in K RedshiftDatatype.two_optional_args = false.
Proof.
  intros H. repeat (destruct H as [<-|H]; [repeat split; discriminate|]). destruct H.
Qed.

Lemma two_optional_args_shape (K : string) :
  In K RedshiftDatatype.two_optional_args ->
  keyword_shape K /\ str_in K RedshiftDatatype.one_optional_arg = false.
Proof.
  intros H. repeat (destruct H as [<-|H]; [repeat split; discriminate|]). destruct H.
Qed.

Lemma numeral_without (a : ascii) (d : string) :
  is_digit a = false -> is_numeral d = true -> contains a d = false.
Proof.
  intros Ha Hd. apply (all_chars_contains is_digit); [exact Ha | exact (numeral_digits d Hd)].
Qed.

Lemma numeral_all_dot (d : string) : is_numeral d = true -> all_chars is_dot d = true.
Proof.
  intros Hd%numeral_digits. induction d as [|c d IH]; [reflexivity|].
  cbn in Hd |- *. apply andb_true_iff in Hd as [Hc Hd].
  rewrite (digit_is_dot c Hc), (IH Hd). reflexivity.
Qed.

Lemma numeral_not_max (d : string) : is_numeral d = true -> String.eqb d "MAX" = false.
Proof.
  intros (c & r & -> & Hc & _)%is_numeral_inv. cbn.
  rewrite Ascii.eqb_sym, (digit_not_M c Hc). reflexivity.
Qed.

(** ** [RedshiftDatatype._is_valid] *)

Ltac norm_append := rewrite ?append_cons, ?append_nil.

Lemma bind_ok {A B : Type} (a : A) (k : A -> Exc B) : (Ok a ≫= k) = k a.
Proof. reflexivity. Qed.

Lemma num_ranges_precision :
  getitem RedshiftDatatype.num_ranges "PRECISION" = Ok (1, 38).
Proof. reflexivity. Qed.

Lemma num_ranges_scale :
  getitem RedshiftDatatype.num_ranges "SCALE" = Ok (0, 37).
Proof. reflexivity. Qed.




Lemma one_optional_arg_alias (K : string) :
  In K RedshiftDatatype.one_optional_arg ->
  exists alias lo hi,
    getitem RedshiftDatatype.aliases K = Ok alias /\
    getitem RedshiftDatatype.str_ranges alias = Ok (lo, hi) /\
    ((In K char_family /\ alias = "CHAR" /\ lo = 1 /\ hi = 4096) \/
     (In K varchar_family /\ alias = "VARCHAR" /\ lo = 1 /\ hi = 65535)).
Proof.
  intros H.
  repeat (destruct H as [<-|H];
          [ first [ exists "CHAR", 1, 4096; split; [reflexivity|]; split; [reflexivity|];
                    left; cbn; intuition congruence
                  | exists "VARCHAR", 1, 65535; split; [reflexivity|]; split; [reflexivity|];
                    right; cbn; intuition congruence ] | ]).
  destruct H.
Qed.



(** ** Where the predicate raises *)

(** The two-argument pattern also accepts the argument MAX, which [int]
    then refuses. *)
Lemma two_arguments_max_raises (max_str_digits : nat) (K rest : string) :
  In K RedshiftDatatype.two_optional_args ->
  RedshiftDatatype._is_valid max_str_digits (VStr (K +:+ "(MAX)" +:+ rest))
  = Raise ValueError.
Proof.
  intros HK.
  destruct (two_optional_args_shape K HK) as [(Hne & Hrun & Hparen) Hnot1].
  unfold RedshiftDatatype._is_valid, RedshiftDatatype.valid_single_argument,
    RedshiftDatatype.valid_double_argument, findall_truthy.
  pose proof (single_arg_pattern_max K rest Hne Hrun) as Hs.
  pose proof (multiple_arg_pattern_max K rest Hne Hrun) as Hm.
  pose proof (bracket_pattern_first K "MAX" rest Hparen eq_refl eq_refl) as Hb.
  revert Hs Hm Hb. norm_append. intros Hs Hm Hb.
  rewrite Hs, Hm, Hb, split_at_first by exact Hparen.
  cbn [list_getitem nth_error group1]. rewrite !bind_ok.
  rewrite (proj2 (str_in_In K _) HK), Hnot1. reflexivity.
Qed.

(** C1, at the input where it fails: on "DECIMAL(MAX)" the predicate of
    [RedshiftDatatype] raises [ValueError] instead of returning [False],
    while the single-argument form of the same text is handled. *)
Theorem decimal_max_raises (max_str_digits : nat) :
  RedshiftDatatype._is_valid max_str_digits (VStr "DECIMAL(MAX)") = Raise ValueError /\
  RedshiftDatatype.valid_single_argument max_str_digits "DECIMAL(MAX)" = Ok false /\
  RedshiftDatatype.valid_double_argument max_str_digits "DECIMAL(MAX)" = Raise ValueError /\
  RedshiftDatatype._is_valid max_str_digits (VStr "VARCHAR(MAX)") = Ok true.
Proof. repeat split. Qed.

(** ** What a match of the patterns says about the string *)

Lemma span_exists (p : ascii -> bool) (s : string) :
  exists run rest, s = run +:+ rest /\ all_chars p run = true /\ head_outside p rest.
Proof.
  induction s as [|c s (run & rest & -> & Hrun & Hrest)].
  - exists "", "". repeat split.
  - destruct (p c) eqn:Hc.
    + exists (String c run), rest. repeat split; [|exact Hrest].
      cbn. rewrite Hc, Hrun. reflexivity.
    + exists "", (String c (run +:+ rest)). repeat split. exact Hc.
Qed.

Lemma digits_numeral (c : ascii) (r : string) :
  all_chars is_digit (String c r) = true -> is_numeral (String c r) = true.
Proof. intros H. unfold is_numeral. rewrite H. reflexivity. Qed.

Lemma single_arg_pattern_inv (s : string) (g : captured) :
  re_search RedshiftDatatype.single_arg_pattern s = Some g ->
  exists run arg rest,
    s = run +:+ "(" +:+ arg +:+ ")" +:+ rest /\
    run <> "" /\ all_chars is_letter_or_space run = true /\
    (arg = "MAX" \/ is_numeral arg = true).
Proof.
  destruct (span_exists is_letter_or_space s) as (run & r1 & -> & Hrun & Hhead).
  unfold re_search, RedshiftDatatype.single_arg_pattern, match_at, plus.
  cbn [anchored body matches].
  rewrite rep_greedy_run; [ | exact Hrun | exact Hhead | ].
  2:{ intros c t Hc. rewrite (letter_or_space_not_paren c Hc). reflexivity. }
  destruct run as [|c0 run]; [discriminate|].
  cbn [String.length Nat.leb].
  destruct r1 as [|c1 r2]; [discriminate|].
  destruct (Ascii.eqb_spec "(" c1) as [<-|]; [|discriminate].
  destruct (span_exists is_digit r2) as (ds & r3 & -> & Hds & Hh3).
  rewrite rep_greedy_run; [ | exact Hds | exact Hh3 | ].
  2:{ intros c t Hc. rewrite (digit_not_close c Hc). reflexivity. }
  destruct ds as [|d0 ds].
  - cbn [String.length Nat.leb or_else]. rewrite append_nil.
    destruct r3 as [|a1 r3]; [discriminate|].
    destruct (Ascii.eqb_spec "M" a1) as [<-|]; [|discriminate].
    destruct r3 as [|a2 r3]; [discriminate|].
    destruct (Ascii.eqb_spec "A" a2) as [<-|]; [|discriminate].
    destruct r3 as [|a3 r3]; [discriminate|].
    destruct (Ascii.eqb_spec "X" a3) as [<-|]; [|discriminate].
    destruct r3 as [|a4 r3]; [discriminate|].
    destruct (Ascii.eqb_spec ")" a4) as [<-|]; [|discriminate].
    intros _. exists (String c0 run), "MAX", r3.
    repeat split; [discriminate | exact Hrun | left; reflexivity].
  - cbn [String.length Nat.leb].
    assert (HM : Ascii.eqb "M" d0 = false).
    { apply digit_not_M. cbn in Hds. apply andb_true_iff in Hds as [H _]. exact H. }
    destruct r3 as [|a r3].
    + cbn [or_else]. rewrite append_cons, HM. discriminate.
    + destruct (Ascii.eqb_spec ")" a) as [<-|].
      * intros _. exists (String c0 run), (String d0 ds), r3.
        repeat split; [discriminate | exact Hrun | right; apply digits_numeral, Hds].
      * cbn [or_else]. rewrite append_cons, HM. discriminate.
Qed.

(** A numeral and the closing bracket, as both patterns end. *)
Lemma numeral_then_close_inv (f : string -> captured) (t : string) (g : captured) :
  rep true is_digit
    (fun s' => match s' with
               | "" => None
               | String c' _ => if Ascii.eqb ")" c' then Some (f s') else None
               end) 1 None t = Some g ->
  exists d rest, t = d +:+ ")" +:+ rest /\ is_numeral d = true.
Proof.
  destruct (span_exists is_digit t) as (ds & r & -> & Hds & Hh).
  rewrite rep_greedy_run; [ | exact Hds | exact Hh | ].
  2:{ intros c u Hc. rewrite (digit_not_close c Hc). reflexivity. }
  destruct ds as [|d0 ds]; [discriminate|]. cbn [String.length Nat.leb].
  destruct r as [|a r]; [discriminate|].
  destruct (Ascii.eqb_spec ")" a) as [<-|]; [|discriminate].
  intros _. exists (String d0 ds), r. split; [reflexivity | apply digits_numeral, Hds].
Qed.

Lemma multiple_arg_pattern_inv (s : string) (g : captured) :
  re_search RedshiftDatatype.multiple_arg_pattern s = Some g ->
  exists run arg rest,
    s = run +:+ "(" +:+ arg +:+ ")" +:+ rest /\
    run <> "" /\ all_chars is_letter_or_space run = true /\
    (arg = "MAX" \/
     exists d1 blank d2,
       arg = d1 +:+ "," +:+ blank +:+ d2 /\
       is_numeral d1 = true /\ is_numeral d2 = true /\
       (blank = "" \/ blank = " ")).
Proof.
  destruct (span_exists is_letter_or_space s) as (run & r1 & -> & Hrun & Hhead).
  unfold re_search, RedshiftDatatype.multiple_arg_pattern, match_at, plus,
    exactly_one, optional.
  cbn [anchored body matches].
  rewrite rep_greedy_run; [ | exact Hrun | exact Hhead | ].
  2:{ intros c t Hc. rewrite (letter_or_space_not_paren c Hc). reflexivity. }
  destruct run as [|c0 run]; [discriminate|].
  cbn [String.length Nat.leb].
  destruct r1 as [|c1 r2]; [discriminate|].
  destruct (Ascii.eqb_spec "(" c1) as [<-|]; [|discriminate].
  destruct (span_exists is_digit r2) as (ds & r3 & -> & Hds & Hh3).
  rewrite rep_greedy_run; [ | exact Hds | exact Hh3 | ].
  2:{ intros c t Hc. cbn [rep may_take Nat.eqb]. rewrite (digit_not_comma c Hc).
      reflexivity. }
  destruct ds as [|d0 ds].
  - cbn [String.length Nat.leb or_else]. rewrite append_nil.
    destruct r3 as [|a1 r3]; [discriminate|].
    destruct (Ascii.eqb_spec "M" a1) as [<-|]; [|discriminate].
    destruct r3 as [|a2 r3]; [discriminate|].
    destruct (Ascii.eqb_spec "A" a2) as [<-|]; [|discriminate].
    destruct r3 as [|a3 r3]; [discriminate|].
    destruct (Ascii.eqb_spec "X" a3) as [<-|]; [|discriminate].
    destruct r3 as [|a4 r3]; [discriminate|].
    destruct (Ascii.eqb_spec ")" a4) as [<-|]; [|discriminate].
    intros _. exists (String c0 run), "MAX", r3.
    repeat split; [discriminate | exact Hrun | left; reflexivity].
  - cbn [String.length Nat.leb].
    assert (HM : Ascii.eqb "M" d0 = false).
    { apply digit_not_M. cbn in Hds. apply andb_true_iff in Hds as [H _]. exact H. }
    match goal with
    | |- or_else ?a ?b = _ -> _ =>
        replace b with (@None captured) by (rewrite append_cons, HM; reflexivity)
    end.
    destruct r3 as [|a r3]; [discriminate|].
    cbn [rep may_take option_map Nat.pred Nat.eqb andb].
    destruct (is_char "," a) eqn:Ha; [|discriminate].
    apply Ascii.eqb_eq in Ha as <-. rewrite rep_done.
    assert (Hd1 : is_numeral (String d0 ds) = true) by (apply digits_numeral, Hds).
    destruct r3 as [|b r4]; [discriminate|].
    destruct (is_char " " b) eqn:Hb.
    + apply Ascii.eqb_eq in Hb as <-.
      cbn [rep may_take option_map Nat.pred Nat.eqb andb].
      change (is_char " " " ") with true. cbn [andb]. rewrite rep_done.
      change (is_digit " ") with false. cbn [andb or_else].
      destruct (rep true is_digit _ 1 None r4) as [g'|] eqn:Hrep; [|discriminate].
      apply numeral_then_close_inv in Hrep as (d2 & rest & -> & Hd2).
      intros _. exists (String c0 run), (String d0 ds +:+ "," +:+ " " +:+ d2), rest.
      split; [|split; [discriminate | split; [exact Hrun|]]].
      * repeat first [rewrite append_cons | rewrite append_nil | rewrite append_assoc].
        reflexivity.
      * right. exists (String d0 ds), " ", d2. auto.
    + rewrite rep_skip by exact Hb. cbn beta. cbn [or_else].
      destruct (rep true is_digit _ 1 None (String b r4)) as [g'|] eqn:Hrep; [|discriminate].
      apply numeral_then_close_inv in Hrep as (d2 & rest & Heq & Hd2).
      rewrite Heq.
      intros _. exists (String c0 run), (String d0 ds +:+ "," +:+ "" +:+ d2), rest.
      split; [|split; [discriminate | split; [exact Hrun|]]].
      * repeat first [rewrite append_cons | rewrite append_nil | rewrite append_assoc].
        reflexivity.
      * right. exists (String d0 ds), "", d2. auto.
Qed.

(** ** The two helpers on the strings their patterns match *)

Lemma letters_no_paren (run : string) :
  all_chars is_letter_or_space run = true -> contains "(" run = false.
Proof. apply all_chars_contains. reflexivity. Qed.

Lemma replace_empty_append (c : ascii) (a b : string) :
  replace_empty c (a +:+ b) = replace_empty c a +:+ replace_empty c b.
Proof.
  induction a as [|x a IH]; [reflexivity|].
  rewrite append_cons. cbn. destruct (Ascii.eqb x c); [exact IH|].
  rewrite append_cons, IH. reflexivity.
Qed.

Lemma valid_single_argument_max (max_str_digits : nat) (run rest : string) :
  run <> "" -> all_chars is_letter_or_space run = true ->
  RedshiftDatatype.valid_single_argument max_str_digits (run +:+ "(MAX)" +:+ rest)
  = Ok (str_in run RedshiftDatatype.one_optional_arg).
Proof.
  intros Hne Hrun. pose proof (letters_no_paren run Hrun) as Hparen.
  unfold RedshiftDatatype.valid_single_argument, findall_truthy.
  pose proof (single_arg_pattern_max run rest Hne Hrun) as Hs.
  pose proof (bracket_pattern_first run "MAX" rest Hparen eq_refl eq_refl) as Hb.
  revert Hs Hb. norm_append. intros Hs Hb.
  rewrite Hs, Hb, split_at_first by exact Hparen.
  cbn [list_getitem nth_error group1]. rewrite !bind_ok.
  destruct (str_in run RedshiftDatatype.one_optional_arg) eqn:Hin; [|reflexivity].
  apply str_in_In in Hin.
  destruct (one_optional_arg_alias run Hin) as (alias & lo & hi & -> & Hrange & _).
  rewrite bind_ok, Hrange. reflexivity.
Qed.

Lemma valid_single_argument_numeral (max_str_digits : nat) (run d rest : string) :
  run <> "" -> all_chars is_letter_or_space run = true -> is_numeral d = true ->
  RedshiftDatatype.valid_single_argument max_str_digits (run +:+ "(" +:+ d +:+ ")" +:+ rest)
  = if str_in run RedshiftDatatype.one_optional_arg
    then if within_digit_limit max_str_digits d
         then Ok (if str_in run char_family
                  then (1 <=? numeral_value d) && (numeral_value d <=? 4096)
                  else (1 <=? numeral_value d) && (numeral_value d <=? 65535))
         else Raise ValueError
    else Ok false.
Proof.
  intros Hne Hrun Hd. pose proof (letters_no_paren run Hrun) as Hparen.
  unfold RedshiftDatatype.valid_single_argument, findall_truthy.
  pose proof (single_arg_pattern_numeral run d rest Hne Hrun Hd) as Hs.
  pose proof (bracket_pattern_first run d rest Hparen (numeral_all_dot d Hd)
                (numeral_without ")" d eq_refl Hd)) as Hb.
  revert Hs Hb. norm_append. intros Hs Hb.
  rewrite Hs, Hb, split_at_first by exact Hparen.
  cbn [list_getitem nth_error group1]. rewrite !bind_ok.
  destruct (str_in run RedshiftDatatype.one_optional_arg) eqn:Hin; [|reflexivity].
  apply str_in_In in Hin.
  rewrite replace_empty_without by (apply numeral_without; [reflexivity | exact Hd]).
  rewrite (numeral_not_max d Hd).
  destruct (within_digit_limit max_str_digits d) eqn:Hfit.
  - rewrite (py_int_numeral _ d Hd Hfit).
    repeat (destruct Hin as [<-|Hin]; [reflexivity|]). destruct Hin.
  - rewrite (py_int_numeral_too_long _ d Hd Hfit).
    repeat (destruct Hin as [<-|Hin]; [reflexivity|]). destruct Hin.
Qed.

Lemma valid_double_argument_max (max_str_digits : nat) (run rest : string) :
  run <> "" -> all_chars is_letter_or_space run = true ->
  RedshiftDatatype.valid_double_argument max_str_digits (run +:+ "(MAX)" +:+ rest)
  = if str_in run RedshiftDatatype.two_optional_args then Raise ValueError else Ok VNull.
Proof.
  intros Hne Hrun. pose proof (letters_no_paren run Hrun) as Hparen.
  unfold RedshiftDatatype.valid_double_argument, findall_truthy.
  pose proof (multiple_arg_pattern_max run rest Hne Hrun) as Hm.
  pose proof (bracket_pattern_first run "MAX" rest Hparen eq_refl eq_refl) as Hb.
  revert Hm Hb. norm_append. intros Hm Hb.
  rewrite Hm, Hb, split_at_first by exact Hparen.
  cbn [list_getitem nth_error group1]. rewrite !bind_ok.
  destruct (str_in run RedshiftDatatype.two_optional_args); reflexivity.
Qed.

Lemma multiple_arg_pattern_pair_blank (run d1 d2 rest : string) :
  run <> "" -> all_chars is_letter_or_space run = true ->
  is_numeral d1 = true -> is_numeral d2 = true ->
  re_search RedshiftDatatype.multiple_arg_pattern
    (run +:+ "(" +:+ d1 +:+ "," +:+ " " +:+ d2 +:+ ")" +:+ rest)
  = Some (Some (d1 +:+ "," +:+ " " +:+ d2)).
Proof.
  intros Hne Hrun Hd1 Hd2.
  unfold re_search, RedshiftDatatype.multiple_arg_pattern, match_at, plus,
    exactly_one, optional.
  cbn [anchored body matches].
  rewrite !append_cons, !append_nil.
  after_letters Hne Hrun.
  rewrite rep_greedy_run; [ | exact (numeral_digits d1 Hd1) | reflexivity | ].
  2:{ intros c t Hc. cbn [rep may_take Nat.eqb]. rewrite (digit_not_comma c Hc).
      reflexivity. }
  rewrite (numeral_length d1 Hd1).
  cbn [rep may_take Nat.eqb option_map Nat.pred].
  change (is_char "," ",") with true. change (is_char " " " ") with true.
  change (is_digit " ") with false. cbn [andb or_else]. rewrite rep_done.
  rewrite rep_greedy_run; [ | exact (numeral_digits d2 Hd2) | reflexivity | ].
  2:{ intros c t Hc. rewrite (digit_not_close c Hc). reflexivity. }
  rewrite (numeral_length d2 Hd2), Ascii.eqb_refl. cbn [or_else].
  replace (d1 +:+ String "," (String " " (d2 +:+ String ")" rest)))
    with ((d1 +:+ String "," (String " " d2)) +:+ String ")" rest)
    by (rewrite append_assoc, !append_cons; reflexivity).
  rewrite substring_prefix. reflexivity.
Qed.

Lemma valid_double_argument_pair (max_str_digits : nat) (run d1 blank d2 rest : string) :
  run <> "" -> all_chars is_letter_or_space run = true ->
  is_numeral d1 = true -> is_numeral d2 = true -> blank = "" \/ blank = " " ->
  RedshiftDatatype.valid_double_argument max_str_digits
    (run +:+ "(" +:+ d1 +:+ "," +:+ blank +:+ d2 +:+ ")" +:+ rest)
  = if str_in run RedshiftDatatype.two_optional_args
    then if within_digit_limit max_str_digits d1 && within_digit_limit max_str_digits d2
         then Ok (if (1 <=? numeral_value d1) && (numeral_value d1 <=? 38)
                     && ((0 <=? numeral_value d2) && (numeral_value d2 <=? 37))
                     && (numeral_value d1 >? numeral_value d2)
                  then VBool true else VNull)
         else Raise ValueError
    else Ok VNull.
Proof.
  intros Hne Hrun Hd1 Hd2 Hblank. pose proof (letters_no_paren run Hrun) as Hparen.
  unfold RedshiftDatatype.valid_double_argument, findall_truthy.
  assert (Hm : re_search RedshiftDatatype.multiple_arg_pattern
                 (run +:+ "(" +:+ d1 +:+ "," +:+ blank +:+ d2 +:+ ")" +:+ rest)
               = Some (Some (d1 +:+ "," +:+ blank +:+ d2))).
  { destruct Hblank as [-> | ->].
    - rewrite !append_nil. apply multiple_arg_pattern_pair; assumption.
    - apply multiple_arg_pattern_pair_blank; assumption. }
  assert (Hdot : all_chars is_dot (d1 +:+ "," +:+ blank +:+ d2) = true).
  { rewrite !all_chars_append, (numeral_all_dot d1 Hd1), (numeral_all_dot d2 Hd2).
    destruct Hblank as [-> | ->]; reflexivity. }
  assert (Hclose : contains ")" (d1 +:+ "," +:+ blank +:+ d2) = false).
  { rewrite !contains_append, (numeral_without ")" d1 eq_refl Hd1),
      (numeral_without ")" d2 eq_refl Hd2).
    destruct Hblank as [-> | ->]; reflexivity. }
  assert (Hrepl : replace_empty " " (d1 +:+ "," +:+ blank +:+ d2) = d1 +:+ String "," d2).
  { rewrite !replace_empty_append.
    rewrite (replace_empty_without " " d1), (replace_empty_without " " d2)
      by (apply numeral_without; [reflexivity | assumption]).
    destruct Hblank as [-> | ->]; reflexivity. }
  pose proof (bracket_pattern_first run _ rest Hparen Hdot Hclose) as Hb.
  rewrite !append_assoc in Hb.
  pose proof (split_at_first "(" run (d1 +:+ "," +:+ blank +:+ d2 +:+ ")" +:+ rest)
                Hparen) as Hsp.
  change (run +:+ String "(" (d1 +:+ "," +:+ blank +:+ d2 +:+ ")" +:+ rest))
    with (run +:+ "(" +:+ d1 +:+ "," +:+ blank +:+ d2 +:+ ")" +:+ rest) in Hsp.
  rewrite Hm, Hb, Hsp.
  cbn [list_getitem nth_error group1]. rewrite !bind_ok.
  destruct (str_in run RedshiftDatatype.two_optional_args); [|reflexivity].
  rewrite Hrepl.
  rewrite split_at_first by (apply numeral_without; [reflexivity | assumption]).
  rewrite split_without by (apply numeral_without; [reflexivity | assumption]).
  cbn [mapM].
  destruct (within_digit_limit max_str_digits d1) eqn:Hfit1.
  - rewrite (py_int_numeral _ d1 Hd1 Hfit1), bind_ok.
    destruct (within_digit_limit max_str_digits d2) eqn:Hfit2.
    + rewrite (py_int_numeral _ d2 Hd2 Hfit2), !bind_ok.
      rewrite num_ranges_precision, num_ranges_scale, !bind_ok.
      cbn [list_getitem nth_error]. rewrite !bind_ok.
      unfold RedshiftDatatype.in_range. cbn [fst snd andb].
      destruct (_ && _ && _ && _); reflexivity.
    + rewrite (py_int_numeral_too_long _ d2 Hd2 Hfit2). reflexivity.
  - rewrite (py_int_numeral_too_long _ d1 Hd1 Hfit1). reflexivity.
Qed.


(** ** Every outcome of [RedshiftDatatype._is_valid] *)

Lemma valid_single_argument_unmatched (max_str_digits : nat) (s : string) :
  re_search RedshiftDatatype.single_arg_pattern s = None ->
  RedshiftDatatype.valid_single_argument max_str_digits s = Ok false.
Proof.
  intros H. unfold RedshiftDatatype.valid_single_argument, findall_truthy.
  rewrite H. reflexivity.
Qed.

Lemma valid_double_argument_unmatched (max_str_digits : nat) (s : string) :
  re_search RedshiftDatatype.multiple_arg_pattern s = None ->
  RedshiftDatatype.valid_double_argument max_str_digits s = Ok VNull.
Proof.
  intros H. unfold RedshiftDatatype.valid_double_argument, findall_truthy.
  rewrite H. reflexivity.
Qed.

Lemma valid_single_argument_outcome (max_str_digits : nat) (s : string) :
  match RedshiftDatatype.valid_single_argument max_str_digits s with
  | Ok _ => True
  | Raise e => e = ValueError /\ raising_text max_str_digits s
  end.
Proof.
  destruct (re_search RedshiftDatatype.single_arg_pattern s) as [g|] eqn:Hs.
  - apply single_arg_pattern_inv in Hs as (run & arg & rest & -> & Hne & Hrun & Harg).
    destruct Harg as [-> | Hd].
    + change ("(" +:+ "MAX" +:+ ")" +:+ rest) with ("(MAX)" +:+ rest).
      rewrite valid_single_argument_max by assumption. exact I.
    + rewrite valid_single_argument_numeral by assumption.
      destruct (str_in run RedshiftDatatype.one_optional_arg) eqn:Hin; [|exact I].
      destruct (within_digit_limit max_str_digits arg) eqn:Hfit; [exact I|].
      split; [reflexivity|]. right; left.
      exists run, arg, rest. apply str_in_In in Hin. auto.
  - rewrite valid_single_argument_unmatched by exact Hs. exact I.
Qed.

Lemma valid_double_argument_outcome (max_str_digits : nat) (s : string) :
  match RedshiftDatatype.valid_double_argument max_str_digits s with
  | Ok _ => True
  | Raise e => e = ValueError /\ raising_text max_str_digits s
  end.
Proof.
  destruct (re_search RedshiftDatatype.multiple_arg_pattern s) as [g|] eqn:Hs.
  - apply multiple_arg_pattern_inv in Hs as (run & arg & rest & -> & Hne & Hrun & Harg).
    destruct Harg as [-> | (d1 & blank & d2 & -> & Hd1 & Hd2 & Hblank)].
    + change ("(" +:+ "MAX" +:+ ")" +:+ rest) with ("(MAX)" +:+ rest).
      rewrite valid_double_argument_max by assumption.
      destruct (str_in run RedshiftDatatype.two_optional_args) eqn:Hin; [|exact I].
      split; [reflexivity|]. left. exists run, rest. apply str_in_In in Hin. auto.
    + rewrite !append_assoc.
      rewrite valid_double_argument_pair by assumption.
      destruct (str_in run RedshiftDatatype.two_optional_args) eqn:Hin; [|exact I].
      destruct (within_digit_limit max_str_digits d1) eqn:Hfit1;
        [destruct (within_digit_limit max_str_digits d2) eqn:Hfit2; [exact I|]|];
        (split; [reflexivity|]; right; right;
         exists run, d1, blank, d2, rest; apply str_in_In in Hin; auto 10).
  - rewrite valid_double_argument_unmatched by exact Hs. exact I.
Qed.

Lemma raising_text_raises (max_str_digits : nat) (s : string) :
  raising_text max_str_digits s ->
  RedshiftDatatype._is_valid max_str_digits (VStr s) = Raise ValueError.
Proof.
  intros [(K & rest & HK & ->) | [(K & d & rest & HK & Hd & Hfit & ->)
    | (K & d1 & blank & d2 & rest & HK & Hd1 & Hd2 & Hblank & Hfit & ->)]].
  - apply two_arguments_max_raises, HK.
  - destruct (one_optional_arg_shape K HK) as [(Hne & Hrun & _) _].
    unfold RedshiftDatatype._is_valid.
    rewrite valid_single_argument_numeral by assumption.
    rewrite (proj2 (str_in_In K _) HK), Hfit. reflexivity.
  - destruct (two_optional_args_shape K HK) as [(Hne & Hrun & _) _].
    unfold RedshiftDatatype._is_valid.
    rewrite valid_single_argument_unmatched
      by (apply (single_arg_pattern_pair K d1 (blank +:+ d2 +:+ ")" +:+ rest)); assumption).
    rewrite valid_double_argument_pair by assumption.
    rewrite (proj2 (str_in_In K _) HK).
    replace (within_digit_limit max_str_digits d1 && within_digit_limit max_str_digits d2)
      with false by (destruct Hfit as [-> | ->]; [|rewrite andb_false_r]; reflexivity).
    reflexivity.
Qed.

(** X1: the predicate returns a boolean for every value but the strings
    described by [raising_text], and on those it raises [ValueError]. *)
Theorem redshift_is_valid_outcome (max_str_digits : nat) (value : Value) :
  match RedshiftDatatype._is_valid max_str_digits value with
  | Ok _ => forall s, value = VStr s -> ~ raising_text max_str_digits s
  | Raise e => e = ValueError /\ exists s, value = VStr s /\ raising_text max_str_digits s
  end.
Proof.
  destruct (RedshiftDatatype._is_valid max_str_digits value) as [b|e] eqn:Hv.
  - intros s -> Hs. rewrite (raising_text_raises _ s Hs) in Hv. discriminate.
  - destruct value; try discriminate. unfold RedshiftDatatype._is_valid in Hv.
    pose proof (valid_single_argument_outcome max_str_digits s) as H1.
    pose proof (valid_double_argument_outcome max_str_digits s) as H2.
    destruct (RedshiftDatatype.valid_single_argument max_str_digits s) as [b1|e1].
    + destruct (RedshiftDatatype.valid_double_argument max_str_digits s) as [b2|e2].
      * discriminate.
      * injection Hv as <-. destruct H2 as [-> H2]. eauto.
    + injection Hv as <-. destruct H1 as [-> H1]. eauto.
Qed.

(** ** The strings [RedshiftDatatype._is_valid] accepts *)

Lemma single_arg_pattern_needs_bracket (s : string) :
  contains "(" s = false -> re_search RedshiftDatatype.single_arg_pattern s = None.
Proof.
  intros Hs. destruct (re_search _ s) as [g|] eqn:Hm; [|reflexivity].
  apply single_arg_pattern_inv in Hm as (run & arg & rest & -> & _).
  revert Hs. norm_append. rewrite contains_bracketed. discriminate.
Qed.

Lemma multiple_arg_pattern_needs_bracket (s : string) :
  contains "(" s = false -> re_search RedshiftDatatype.multiple_arg_pattern s = None.
Proof.
  intros Hs. destruct (re_search _ s) as [g|] eqn:Hm; [|reflexivity].
  apply multiple_arg_pattern_inv in Hm as (run & arg & rest & -> & _).
  revert Hs. norm_append. rewrite contains_bracketed. discriminate.
Qed.



(** The predicate on the three bracketed forms, for any run of letters
    and blanks before the bracket and any text after it. *)
Lemma is_valid_max_form (max_str_digits : nat) (run rest : string) :
  run <> "" -> all_chars is_letter_or_space run = true ->
  RedshiftDatatype._is_valid max_str_digits (VStr (run +:+ "(MAX)" +:+ rest))
  = if str_in run RedshiftDatatype.two_optional_args then Raise ValueError
    else Ok (str_in run RedshiftDatatype.one_optional_arg).
Proof.
  intros Hne Hrun. unfold RedshiftDatatype._is_valid.
  rewrite valid_without_argument_paren by (norm_append; apply contains_bracketed).
  rewrite valid_single_argument_max, valid_double_argument_max by assumption.
  destruct (str_in run RedshiftDatatype.two_optional_args),
    (str_in run RedshiftDatatype.one_optional_arg); reflexivity.
Qed.

Lemma is_valid_numeral_form (max_str_digits : nat) (run d rest : string) :
  run <> "" -> all_chars is_letter_or_space run = true -> is_numeral d = true ->
  RedshiftDatatype._is_valid max_str_digits (VStr (run +:+ "(" +:+ d +:+ ")" +:+ rest))
  = if str_in run RedshiftDatatype.one_optional_arg
    then if within_digit_limit max_str_digits d
         then Ok (RedshiftDatatype.in_range (length_bounds run) (numeral_value d))
         else Raise ValueError
    else Ok false.
Proof.
  intros Hne Hrun Hd. unfold RedshiftDatatype._is_valid.
  rewrite valid_without_argument_paren by (norm_append; apply contains_bracketed).
  rewrite valid_single_argument_numeral by assumption.
  rewrite valid_double_argument_unmatched
    by (apply multiple_arg_pattern_numeral; assumption).
  unfold length_bounds, RedshiftDatatype.in_range.
  destruct (str_in run RedshiftDatatype.one_optional_arg); [|reflexivity].
  destruct (within_digit_limit max_str_digits d); [|reflexivity].
  destruct (str_in run char_family); cbn [fst snd mbind exc_bind existsb truthy orb];
    rewrite orb_false_r; reflexivity.
Qed.

Lemma is_valid_pair_form (max_str_digits : nat) (run d1 blank d2 rest : string) :
  run <> "" -> all_chars is_letter_or_space run = true ->
  is_numeral d1 = true -> is_numeral d2 = true -> blank = "" \/ blank = " " ->
  RedshiftDatatype._is_valid max_str_digits
    (VStr (run +:+ "(" +:+ d1 +:+ "," +:+ blank +:+ d2 +:+ ")" +:+ rest))
  = if str_in run RedshiftDatatype.two_optional_args
    then if within_digit_limit max_str_digits d1 && within_digit_limit max_str_digits d2
         then Ok ((1 <=? numeral_value d1) && (numeral_value d1 <=? 38)
                  && ((0 <=? numeral_value d2) && (numeral_value d2 <=? 37))
                  && (numeral_value d1 >? numeral_value d2))
         else Raise ValueError
    else Ok false.
Proof.
  intros Hne Hrun Hd1 Hd2 Hblank. unfold RedshiftDatatype._is_valid.
  rewrite valid_without_argument_paren by (norm_append; apply contains_bracketed).
  rewrite valid_single_argument_unmatched
    by (apply (single_arg_pattern_pair run d1 (blank +:+ d2 +:+ ")" +:+ rest)); assumption).
  rewrite valid_double_argument_pair by assumption.
  destruct (str_in run RedshiftDatatype.two_optional_args); [|reflexivity].
  destruct (_ && _); [|reflexivity].
  destruct (_ && _ && _ && _); reflexivity.
Qed.

Lemma max_argument_text (x : string) : "(" +:+ "MAX" +:+ ")" +:+ x = "(MAX)" +:+ x.
Proof. reflexivity. Qed.

(** X3: the patterns are anchored at the start only: once a text begins with
    a bracketed form, what follows the closing bracket does not count. *)
Theorem text_after_bracket_ignored (max_str_digits : nat) (s t : string)
    (Hs : findall_truthy RedshiftDatatype.single_arg_pattern s
          || findall_truthy RedshiftDatatype.multiple_arg_pattern s = true) :
  RedshiftDatatype._is_valid max_str_digits (VStr (s +:+ t))
  = RedshiftDatatype._is_valid max_str_digits (VStr s).
Proof.
  assert (Hshape : exists run arg rest,
    s = run +:+ "(" +:+ arg +:+ ")" +:+ rest /\
    run <> "" /\ all_chars is_letter_or_space run = true /\
    (arg = "MAX" \/ is_numeral arg = true \/
     exists d1 blank d2,
       arg = d1 +:+ "," +:+ blank +:+ d2 /\
       is_numeral d1 = true /\ is_numeral d2 = true /\ (blank = "" \/ blank = " "))).
  { unfold findall_truthy in Hs. apply orb_true_iff in Hs as [Hs|Hs].
    - destruct (re_search RedshiftDatatype.single_arg_pattern s) as [g|] eqn:Hm;
        [|discriminate].
      apply single_arg_pattern_inv in Hm as (run & arg & rest & -> & Hne & Hrun & Harg).
      exists run, arg, rest. intuition.
    - destruct (re_search RedshiftDatatype.multiple_arg_pattern s) as [g|] eqn:Hm;
        [|discriminate].
      apply multiple_arg_pattern_inv in Hm as (run & arg & rest & -> & Hne & Hrun & Harg).
      exists run, arg, rest. intuition. }
  destruct Hshape as (run & arg & rest & -> & Hne & Hrun & Harg).
  rewrite !append_assoc.
  destruct Harg as [-> | [Hd | (d1 & blank & d2 & -> & Hd1 & Hd2 & Hblank)]].
  - rewrite !max_argument_text, !is_valid_max_form by assumption. reflexivity.
  - rewrite !is_valid_numeral_form by assumption. reflexivity.
  - rewrite !append_assoc, !is_valid_pair_form by assumption. reflexivity.
Qed.

Lemma text_after_bracket_ignored_witness :
  findall_truthy RedshiftDatatype.single_arg_pattern "VARCHAR(10)"
  || findall_truthy RedshiftDatatype.multiple_arg_pattern "VARCHAR(10)" = true /\
  RedshiftDatatype._is_valid default_max_str_digits (VStr "VARCHAR(10) NOT NULL")
  = RedshiftDatatype._is_valid default_max_str_digits (VStr "VARCHAR(10)").
Proof.
  split; [reflexivity|].
  exact (text_after_bracket_ignored default_max_str_digits "VARCHAR(10)" " NOT NULL"
           eq_refl).
Defined.

Lemma in_range_spec (r : Z * Z) (x : Z) :
  RedshiftDatatype.in_range r x = true <-> r.1 <= x <= r.2.
Proof. unfold RedshiftDatatype.in_range. rewrite andb_true_iff, !Z.leb_le. tauto. Qed.

Lemma precision_scale_spec (p q : Z) :
  (1 <=? p) && (p <=? 38) && ((0 <=? q) && (q <=? 37)) && (p >? q) = true <->
  1 <= p <= 38 /\ 0 <= q <= 37 /\ q < p.
Proof. rewrite Z.gtb_ltb, !andb_true_iff, !Z.leb_le, Z.ltb_lt. tauto. Qed.


Lemma type_of_bracketed_text (run tail : string) :
  all_chars is_letter_or_space run = true ->
  type_of_text (run +:+ "(" +:+ tail) = run.
Proof.
  intros Hrun. unfold type_of_text. norm_append.
  rewrite split_at_first by (apply letters_no_paren, Hrun). reflexivity.
Qed.

Lemma str_in_app (x : string) (l1 l2 : list string) :
  str_in x (l1 ++ l2) = str_in x l1 || str_in x l2.
Proof. apply existsb_app. Qed.

(** X5: before a bracket the keyword counts letter for letter: a text with an
    opening bracket whose part before it is not one of the upper-case
    keywords that take arguments is rejected (and does not raise),
    although the same keyword alone passes in any case. *)
Theorem bracketed_keyword_exact (max_str_digits : nat) (s : string)
    (Hs : contains "(" s = true)
    (HK : str_in (type_of_text s)
            (RedshiftDatatype.one_optional_arg ++ RedshiftDatatype.two_optional_args)
          = false) :
  RedshiftDatatype._is_valid max_str_digits (VStr s) = Ok false.
Proof.
  rewrite str_in_app in HK. apply orb_false_iff in HK as [H1 H2].
  destruct (re_search RedshiftDatatype.single_arg_pattern s) as [g1|] eqn:Hm1.
  - apply single_arg_pattern_inv in Hm1 as (run & arg & rest & -> & Hne & Hrun & Harg).
    rewrite type_of_bracketed_text in H1, H2 by exact Hrun.
    destruct Harg as [-> | Hd].
    + rewrite max_argument_text, is_valid_max_form by assumption.
      rewrite H1, H2. reflexivity.
    + rewrite is_valid_numeral_form by assumption. rewrite H1. reflexivity.
  - destruct (re_search RedshiftDatatype.multiple_arg_pattern s) as [g2|] eqn:Hm2.
    + apply multiple_arg_pattern_inv in Hm2 as (run & arg & rest & -> & Hne & Hrun & Harg).
      rewrite type_of_bracketed_text in H1, H2 by exact Hrun.
      destruct Harg as [-> | (d1 & blank & d2 & -> & Hd1 & Hd2 & Hblank)].
      * rewrite max_argument_text, is_valid_max_form by assumption.
        rewrite H1, H2. reflexivity.
      * rewrite !append_assoc, is_valid_pair_form by assumption.
        rewrite H2. reflexivity.
    + unfold RedshiftDatatype._is_valid.
      rewrite valid_single_argument_unmatched, valid_double_argument_unmatched
        by assumption.
      rewrite valid_without_argument_paren by exact Hs. reflexivity.
Qed.

Lemma bracketed_keyword_exact_witness :
  contains "(" "varchar(10)" = true /\
  str_in (type_of_text "varchar(10)")
    (RedshiftDatatype.one_optional_arg ++ RedshiftDatatype.two_optional_args) = false /\
  RedshiftDatatype._is_valid default_max_str_digits (VStr "varchar(10)") = Ok false /\
  RedshiftDatatype._is_valid default_max_str_digits (VStr "INT(4)") = Ok false.
Proof.
  split; [reflexivity|]. split; [reflexivity|]. split.
  - exact (bracketed_keyword_exact default_max_str_digits "varchar(10)" eq_refl eq_refl).
  - exact (bracketed_keyword_exact default_max_str_digits "INT(4)" eq_refl eq_refl).
Defined.

(** ** The kinds of values *)

(** X6: every value passes exactly one of the predicates of [null], [num],
    [str], [day], [list] and [map]; within [num] and [day] the narrower
    validators nest: what passes [bool] passes [int], what passes [int]
    passes [num], what passes [timestamp] passes [day], and none of the
    three converses holds. *)
Theorem value_kinds (v : Value) :
  length (List.filter (fun accepts => accepts v)
            [Null._is_valid; Number._is_valid; String_._is_valid; Day._is_valid;
             List_._is_valid; Map._is_valid]) = 1%nat /\
  (Boolean._is_valid v = true -> Integer._is_valid v = true) /\
  (Integer._is_valid v = true -> Number._is_valid v = true) /\
  (Timestamp._is_valid v = true -> Day._is_valid v = true) /\
  (exists z f d,
      Boolean._is_valid (VInt z) = false /\ Integer._is_valid (VInt z) = true /\
      Integer._is_valid (VFloat f) = false /\ Number._is_valid (VFloat f) = true /\
      Timestamp._is_valid (VDate d) = false /\ Day._is_valid (VDate d) = true).
Proof.
  split; [destruct v; reflexivity|].
  repeat split; try (destruct v; cbn; congruence).
  exists 0, (S754_zero false), (mk_date 2000 1 1). repeat split.
Qed.

(** ** The registry, read backwards *)

Lemma register_lookup_inv (d : gmap string validator_class) (W V : validator_class)
    (k : string) :
  register d W !! k = Some V ->
  (W = V /\ (k = class_tag V \/ k = class_name V)) \/ d !! k = Some V.
Proof.
  unfold register. intros H.
  destruct (decide (class_name W = k)) as [<-|n1].
  - rewrite lookup_insert_eq in H. injection H as ->. auto.
  - rewrite lookup_insert_ne in H by exact n1.
    destruct (decide (class_tag W = k)) as [<-|n2].
    + rewrite lookup_insert_eq in H. injection H as ->. auto.
    + rewrite lookup_insert_ne in H by exact n2. auto.
Qed.

Lemma build_registry_lookup_inv (subclasses : list validator_class)
    (d : gmap string validator_class) (k : string) (V : validator_class) :
  fold_left register subclasses d !! k = Some V ->
  (In V subclasses /\ (k = class_tag V \/ k = class_name V)) \/ d !! k = Some V.
Proof.
  revert d. induction subclasses as [|W l IH]; intros d H; cbn in H.
  - auto.
  - destruct (IH _ H) as [[Hin Hk] | Hd].
    + left. split; [right; exact Hin | exact Hk].
    + destruct (register_lookup_inv d W V k Hd) as [[-> Hk] | Hd'].
      * left. split; [left; reflexivity | exact Hk].
      * auto.
Qed.

(** X7: a key resolves in [DefaultValidators] only if it is the tag or the
    class name of a built-in validator, spelled exactly, and then to that
    validator: together with the other direction, the registry holds the
    32 tag and name entries and nothing else. *)
Theorem default_validators_only_tags_and_names (k : string) (V : validator_class) :
  DefaultValidators !! k = Some V <-> (k = class_tag V \/ k = class_name V).
Proof.
  split.
  - intros H. apply build_registry_lookup_inv in H as [[_ Hk] | H]; [exact Hk|].
    rewrite lookup_empty in H. discriminate.
  - pose proof (build_registry_resolves get_subclasses V (get_subclasses_complete V))
      as [Ht Hn].
    intros [-> | ->]; assumption.
Qed.

(** ** How a [Regex] is built *)

Lemma regex_init_regexes (args : list Value) (kwargs : gmap string Value) :
  Regex.regexes (Regex.__init__ args kwargs)
  = map (fun arg => Regex.compile arg
           (Z.lor (Z.lor (Z.lor 0 (if option_set "ignore_case" kwargs then Regex.re_I else 0))
                         (if option_set "multiline" kwargs then Regex.re_M else 0))
                  (if option_set "dotall" kwargs then Regex.re_S else 0)))
        (Regex.str_args args).
Proof.
  unfold Regex.__init__.
  destruct (pop_value "name" kwargs) as [name kwargs1] eqn:Hname.
  destruct (Regex.collect_flags kwargs1) as [flags kwargs2] eqn:Hflags.
  assert (Hsame : forall k, k <> "name" -> option_set k kwargs1 = option_set k kwargs).
  { intros k Hk. unfold pop_value in Hname. injection Hname as _ <-.
    unfold option_set, pop_flag. cbn. rewrite lookup_delete_ne by congruence.
    reflexivity. }
  pose proof (collect_flags_value kwargs1) as Hv. rewrite Hflags in Hv. cbn [fst] in Hv.
  rewrite !Hsame in Hv by discriminate. cbn [Regex.regexes]. rewrite Hv. reflexivity.
Qed.

(** X8: what a [Regex] matches depends on the strings among its positional
    arguments and on whether each of the three options is true, and on
    nothing else it is given: not on arguments that are not strings, not
    on [name] or other keyword arguments, not on which true (or false)
    value an option has. *)
Theorem regex_depends_on_patterns_and_options
    (re_match : string -> Z -> string -> bool)
    (args args' : list Value) (kwargs kwargs' : gmap string Value)
    (Hargs : Regex.str_args args = Regex.str_args args')
    (Hopts : forall k, In k (map fst Regex._regex_flags) ->
                       option_set k kwargs = option_set k kwargs') :
  forall value,
    Regex._is_valid re_match (Regex.__init__ args kwargs) value
    = Regex._is_valid re_match (Regex.__init__ args' kwargs') value.
Proof.
  intros value. unfold Regex._is_valid.
  rewrite !regex_init_regexes, Hargs.
  rewrite !Hopts by (cbn; auto). reflexivity.
Qed.

Lemma regex_depends_on_patterns_and_options_witness :
  let args := [VStr "a+"; VInt 3] in
  let args' := [VNull; VStr "a+"] in
  let kwargs : gmap string Value :=
    <["ignore_case" := VInt 1]> (<["name" := VStr "letters"]> ∅) in
  let kwargs' : gmap string Value :=
    <["ignore_case" := VBool true]> (<["dotall" := VStr ""]> ∅) in
  Regex.str_args args = Regex.str_args args' /\
  (forall k, In k (map fst Regex._regex_flags) ->
             option_set k kwargs = option_set k kwargs') /\
  forall re_match value,
    Regex._is_valid re_match (Regex.__init__ args kwargs) value
    = Regex._is_valid re_match (Regex.__init__ args' kwargs') value.
Proof.
  cbn zeta.
  assert (Hopts : forall k, In k (map fst Regex._regex_flags) ->
            option_set k (<["ignore_case" := VInt 1]> (<["name" := VStr "letters"]> ∅)
                          : gmap string Value)
            = option_set k (<["ignore_case" := VBool true]> (<["dotall" := VStr ""]> ∅)
                            : gmap string Value)).
  { intros k [<- | [<- | [<- | []]]]; reflexivity. }
  split; [reflexivity|]. split; [exact Hopts|].
  intros re_match value.
  exact (regex_depends_on_patterns_and_options re_match
           [VStr "a+"; VInt 3] [VNull; VStr "a+"] _ _ eq_refl Hopts value).
Defined.

(** X9: arguments that are not strings are dropped without an error, so a
    [Regex] given no string pattern accepts nothing. *)
Theorem regex_without_patterns_rejects
    (re_match : string -> Z -> string -> bool)
    (args : list Value) (kwargs : gmap string Value)
    (Hargs : Forall (fun arg => isstr arg = false) args) :
  forall value, Regex._is_valid re_match (Regex.__init__ args kwargs) value = false.
Proof.
  intros value. unfold Regex._is_valid. rewrite regex_init_regexes.
  assert (Hnone : Regex.str_args args = []).
  { induction Hargs as [|arg rest Harg _ IH]; [reflexivity|].
    destruct arg; cbn in Harg |- *; first [discriminate Harg | exact IH]. }
  rewrite Hnone. destruct value; reflexivity.
Qed.

Lemma regex_without_patterns_rejects_witness :
  Forall (fun arg => isstr arg = false) [VInt 5; VNull] /\
  forall re_match value,
    Regex._is_valid re_match (Regex.__init__ [VInt 5; VNull] ∅) value = false.
Proof.
  assert (H : Forall (fun arg => isstr arg = false) [VInt 5; VNull])
    by (repeat constructor).
  split; [exact H|]. intros re_match value.
  exact (regex_without_patterns_rejects re_match [VInt 5; VNull] ∅ H value).
Defined.

(** ** What [make_data] returns *)

(** X10: whatever the reader does, [make_data] either passes on the reader's
    exception (and only when no document was handed in) or returns a list
    that is not empty and whose every entry carries the path; a document
    handed in is returned alone, and the file is not consulted. *)
Theorem make_data_result
    (parse_file : string -> string -> Exc (list Value))
    (path parser : string) (raw_data_ : Value) :
  match make_data parse_file path parser raw_data_ with
  | Ok result =>
      result <> [] /\ Forall (fun item => item.2 = path) result /\
      (truthy raw_data_ = true -> result = [(raw_data_, path)])
  | Raise e => truthy raw_data_ = false /\ parse_file path parser = Raise e
  end.
Proof.
  unfold make_data. destruct (truthy raw_data_) eqn:Hraw.
  - cbn. repeat split; [discriminate | repeat constructor].
  - destruct (parse_file path parser) as [docs|e]; [|split; reflexivity].
    rewrite bind_ok. destruct docs as [|d docs]; cbn.
    + repeat split; [discriminate | repeat constructor | discriminate].
    + repeat split; [discriminate | | discriminate].
      constructor; [reflexivity|]. apply List.Forall_forall.
      intros item (d' & <- & _)%in_map_iff. reflexivity.
Qed.

(** ** [validate] stops at the first failure *)

Section ValidateStops.
Context {Schema Store Report : Type}.
Variable schema_validate :
  Schema -> Value -> string -> bool -> Store -> outcome Report Report * Store.

Lemma validate_loop_stops (schema : Schema) (strict : bool) data st :
  let '(calls, raised, _) := validate_loop schema_validate schema data strict st in
  exists checked skipped,
    data = app checked skipped /\
    map (fun c : call Report => (c.1.1.1, c.1.1.2)) calls = checked /\
    Forall (fun c : call Report => c.1.2 = strict) calls /\
    match raised with
    | None => skipped = [] /\ Forall (fun c : call Report => returned c.2) calls
    | Some r =>
        exists earlier last,
          calls = app earlier [last] /\ last.2 = Raised r /\
          Forall (fun c : call Report => returned c.2) earlier
    end.
Proof.
  revert st. induction data as [|[d path] rest IH]; intros st.
  - cbn. exists [], []. repeat split; constructor.
  - cbn [validate_loop].
    destruct (schema_validate schema d path strict st) as [o st'] eqn:Ho.
    destruct o as [r|r].
    + specialize (IH st').
      destruct (validate_loop schema_validate schema rest strict st')
        as [[calls raised] st''].
      destruct IH as (checked & skipped & -> & Hc & Hs & Hr).
      exists ((d, path) :: checked), skipped.
      split; [reflexivity|]. split; [cbn; rewrite Hc; reflexivity|].
      split; [constructor; [reflexivity | exact Hs]|].
      destruct raised as [r'|].
      * destruct Hr as (earlier & last & -> & Hl & He).
        exists ((d, path, strict, Returned r) :: earlier), last.
        repeat split; [exact Hl|]. constructor; [exact I | exact He].
      * destruct Hr as [-> Hr]. split; [reflexivity|].
        constructor; [exact I | exact Hr].
    + exists [(d, path)], rest. repeat split.
      * repeat constructor.
      * exists [], (d, path, strict, Raised r). repeat split. constructor.
Qed.
End ValidateStops.

(** X11: [validate] validates the items in order, each with the strict flag it
    was given, and stops at the first one whose validation raises: that
    report is raised, the items after it are not validated, and the data
    list is returned, as it was given, only when every item passed. *)
Theorem validate_stops_at_first_failure
    {Schema Store Report : Type}
    (schema_validate :
       Schema -> Value -> string -> bool -> Store -> outcome Report Report * Store)
    (schema : Schema) (data : list (Value * string)) (strict : bool) (st : Store) :
  let run := validate schema_validate schema data strict st in
  let calls : list (call Report) := run.1.2 in
  exists checked skipped,
    data = app checked skipped /\
    map (fun c : call Report => (c.1.1.1, c.1.1.2)) calls = checked /\
    Forall (fun c : call Report => c.1.2 = strict) calls /\
    match run.1.1 with
    | Returned result =>
        result = data /\ skipped = [] /\
        Forall (fun c : call Report => returned c.2) calls
    | Raised r =>
        exists earlier last,
          calls = app earlier [last] /\ last.2 = Raised r /\
          Forall (fun c : call Report => returned c.2) earlier
    end.
Proof.
  cbn zeta. unfold validate.
  pose proof (validate_loop_stops schema_validate schema strict data st) as H.
  destruct (validate_loop schema_validate schema data strict st) as [[calls raised] st'].
  destruct H as (checked & skipped & Hd & Hc & Hs & Hr).
  exists checked, skipped. cbn [fst snd].
  split; [exact Hd|]. split; [exact Hc|]. split; [exact Hs|].
  destruct raised as [r|].
  - exact Hr.
  - destruct Hr as [Hk Hr]. auto.
Qed.

(** ** [make_schema] *)

Section MakeSchemaProperties.
Context {SchemaObj Validators E : Type}.
Variable parse_file : string -> string -> outcome (list Value) E.
Variable new_schema : Value -> string -> Validators -> outcome SchemaObj E.
Variable add_include : SchemaObj -> Value -> outcome SchemaObj E.
Variable is_type_or_syntax_error : E -> bool.
Variable str_of_error : E -> string.

Lemma rethrow_not_empty_file (path : string) (e : E) (m : string) :
  rethrow is_type_or_syntax_error str_of_error path e <> EmptyFile m.
Proof. unfold rethrow. destruct (is_type_or_syntax_error e); discriminate. Qed.

Lemma rethrow_propagated (path : string) (e e' : E) :
  rethrow is_type_or_syntax_error str_of_error path e = Propagated e' ->
  e = e' /\ is_type_or_syntax_error e' = false.
Proof.
  unfold rethrow. destruct (is_type_or_syntax_error e) eqn:He; [discriminate|].
  intros [= <-]. auto.
Qed.

Lemma rethrow_schema_error (path : string) (e : E) (m : string) :
  rethrow is_type_or_syntax_error str_of_error path e = SchemaError m ->
  is_type_or_syntax_error e = true /\
  m = "Schema error in file " +:+ path +:+ String "010" (str_of_error e).
Proof.
  unfold rethrow. destruct (is_type_or_syntax_error e) eqn:He; [|discriminate].
  intros [= <-]. auto.
Qed.
End MakeSchemaProperties.

(** X12: [make_schema] raises its [ValueError] exactly when no schema was
    handed in and the file holds no document; nothing the schema code
    does leads to it. *)
Theorem make_schema_empty_file
    {SchemaObj Validators E : Type}
    (parse_file : string -> string -> outcome (list Value) E)
    (new_schema : Value -> string -> Validators -> outcome SchemaObj E)
    (add_include : SchemaObj -> Value -> outcome SchemaObj E)
    (is_type_or_syntax_error : E -> bool) (str_of_error : E -> string)
    (path parser : string) (validators : Validators) (raw_schema_ : Value)
    (message : string) :
  make_schema parse_file new_schema add_include is_type_or_syntax_error str_of_error
    path parser validators raw_schema_ = Raised (EmptyFile message) <->
  truthy raw_schema_ = false /\ parse_file path parser = Returned [] /\
  message = path +:+ " is an empty file!".
Proof.
  unfold make_schema. destruct (truthy raw_schema_) eqn:Hraw.
  - split; [|intros [H _]; discriminate].
    destruct (new_schema raw_schema_ path validators) as [s|e].
    + cbn. discriminate.
    + intros [= H]. exfalso. exact (rethrow_not_empty_file _ _ _ _ _ H).
  - destruct (parse_file path parser) as [[|first rest]|e].
    + split.
      * intros [= <-]. auto.
      * intros (_ & _ & ->). reflexivity.
    + split; [|intros (_ & H & _); discriminate].
      destruct (new_schema first path validators) as [s|e].
      * destruct (add_includes add_include s rest) as [s'|e]; [discriminate|].
        intros [= H]. exfalso. exact (rethrow_not_empty_file _ _ _ _ _ H).
      * intros [= H]. exfalso. exact (rethrow_not_empty_file _ _ _ _ _ H).
    + split; [discriminate | intros (_ & H & _); discriminate].
Qed.



(** ** [validate] on what [make_data] returns *)

Lemma make_data_labelled
    (parse_file : string -> string -> Exc (list Value))
    (path parser : string) (raw_data_ : Value) (data : list (Value * string)) :
  make_data parse_file path parser raw_data_ = Ok data ->
  data <> [] /\ Forall (fun item => item.2 = path) data.
Proof.
  unfold make_data.
  destruct (if truthy raw_data_ then Ok [raw_data_] else parse_file path parser)
    as [docs|e]; [|discriminate].
  rewrite bind_ok. destruct docs as [|d docs]; cbn; intros [= <-].
  - split; [discriminate | repeat constructor].
  - split; [discriminate|]. constructor; [reflexivity|].
    apply List.Forall_forall. intros item (d' & <- & _)%in_map_iff. reflexivity.
Qed.

(** X14: validating the data of a file always validates at least one document,
    every document under the path of the file; for a file with no
    document that is the empty mapping, validated once. *)
Theorem validate_made_data
    {Schema Store Report : Type}
    (schema_validate :
       Schema -> Value -> string -> bool -> Store -> outcome Report Report * Store)
    (parse_file : string -> string -> Exc (list Value))
    (path parser : string) (raw_data_ : Value) (data : list (Value * string))
    (schema : Schema) (strict : bool) (st : Store)
    (Hdata : make_data parse_file path parser raw_data_ = Ok data) :
  let calls : list (call Report) :=
    (validate schema_validate schema data strict st).1.2 in
  calls <> [] /\
  Forall (fun c : call Report => c.1.1.2 = path /\ c.1.2 = strict) calls /\
  (truthy raw_data_ = false -> parse_file path parser = Ok [] ->
   map (fun c : call Report => c.1.1.1) calls = [VMap []]).
Proof.
  cbn zeta.
  destruct (make_data_labelled parse_file path parser raw_data_ data Hdata)
    as [Hne Hpath].
  unfold validate.
  pose proof (validate_loop_stops schema_validate schema strict data st) as H.
  destruct (validate_loop schema_validate schema data strict st) as [[calls raised] st']
    eqn:Hloop.
  destruct H as (checked & skipped & Hd & Hc & Hs & Hr). cbn [fst snd].
  split; [|split].
  - destruct data as [|[d p] rest]; [congruence|].
    cbn [validate_loop] in Hloop.
    destruct (schema_validate schema d p strict st) as [[r|r] st1].
    + destruct (validate_loop schema_validate schema rest strict st1) as [[c1 r1] s1].
      injection Hloop as <- _ _. discriminate.
    + injection Hloop as <- _ _. discriminate.
  - assert (Hchecked : Forall (fun item : Value * string => item.2 = path) checked).
    { rewrite Hd in Hpath. apply Forall_app in Hpath as [H _]. exact H. }
    rewrite <- Hc in Hchecked. clear Hc Hr Hloop Hd.
    induction Hs as [|c calls' Hc _ IH]; [constructor|].
    cbn [map] in Hchecked. apply Forall_cons in Hchecked as [Hp Hrest].
    constructor; [split; [exact Hp | exact Hc] | exact (IH Hrest)].
  - intros Hraw Hparse. unfold make_data in Hdata.
    rewrite Hraw, Hparse in Hdata. injection Hdata as <-.
    cbn [validate_loop] in Hloop.
    destruct (schema_validate schema (VMap []) path strict st) as [[r|r] st1];
      injection Hloop as <- _ _; reflexivity.
Qed.

Lemma validate_made_data_witness :
  make_data (fun _ _ => Ok []) "d.yaml" "PyYAML" VNull = Ok [(VMap [], "d.yaml")] /\
  map (fun c : call (list string) => c.1.1.1)
    (validate counting_validate tt [(VMap [], "d.yaml")] true 0%nat).1.2 = [VMap []].
Proof.
  assert (H : make_data (fun _ _ => Ok []) "d.yaml" "PyYAML" VNull
              = Ok [(VMap [], "d.yaml")]) by reflexivity.
  split; [exact H|].
  exact (proj2 (proj2 (validate_made_data counting_validate (fun _ _ => Ok [])
                         "d.yaml" "PyYAML" VNull _ tt true 0%nat H))
           eq_refl eq_refl).
Defined.
